(** * Single-room chat client: turn orchestration and completion proxy

    A shallow embedding of the two programs of the repository:

    - [App.handleSend], the submit handler of [src/App.tsx] (the Turn
      Orchestrator over the Transcript View Model), and
    - [Gateway.handler], the serverless route of [api/chat.js] (the
      Completion Gateway),

    together with the statements relating them to the specification. *)

From Stdlib Require Import List Bool Ascii String NArith QArith Lia.
From Stdlib Require Import DecimalString Sorted.
Import ListNotations.

Local Close Scope Q_scope.
Local Open Scope nat_scope.
Local Open Scope list_scope.

(* ================================================================= *)
(** ** JavaScript values used by both programs *)

Module Js.

(** A JavaScript string is a sequence of UTF-16 code units. *)
Definition jsstring := list N.

Definition jsstring_eq_dec (a b : jsstring) : {a = b} + {a <> b} :=
  list_eq_dec N.eq_dec a b.

Definition jsstring_eqb (a b : jsstring) : bool :=
  if jsstring_eq_dec a b then true else false.

(** String literals of the source, written in ASCII. *)
Definition lit (s : string) : jsstring :=
  map N_of_ascii (list_ascii_of_string s).

(** [WhiteSpace] and [LineTerminator] code points of ECMAScript, the
    characters that [String.prototype.trim] strips. *)
Definition is_ws (c : N) : bool :=
  (  (c =? 9) || (c =? 10) || (c =? 11) || (c =? 12) || (c =? 13)
  || (c =? 32) || (c =? 160) || (c =? 5760)
  || ((8192 <=? c) && (c <=? 8202))
  || (c =? 8232) || (c =? 8233) || (c =? 8239) || (c =? 8287)
  || (c =? 12288) || (c =? 65279))%N.

Fixpoint trimStart (s : jsstring) : jsstring :=
  match s with
  | [] => []
  | c :: s' => if is_ws c then trimStart s' else s
  end.

Definition trimEnd (s : jsstring) : jsstring := rev (trimStart (rev s)).

(** [s.trim()] *)
Definition trim (s : jsstring) : jsstring := trimEnd (trimStart s).

(** A string is truthy iff it is not empty. *)
Definition truthy (s : jsstring) : bool :=
  match s with [] => false | _ :: _ => true end.

(** [a || b] on strings. *)
Definition or_else (a b : jsstring) : jsstring := if truthy a then a else b.

(** [`${n}`] for a non-negative integer. *)
Definition number_to_string (n : N) : jsstring :=
  lit (NilZero.string_of_uint (N.to_uint n)).

(** [`${v}`] for a value that may be [undefined]. *)
Definition template (v : option jsstring) : jsstring :=
  match v with
  | Some s => s
  | None => lit "undefined"
  end.

(** An [Error] object; only its [message] is ever read.  Everything thrown
    in the two programs is one: a rejection of [fetch], [new Error], the
    errors of [json()] and [text()], a [TypeError] of the engine.  A thrown
    [null] or [undefined], on which reading [message] would itself throw, is
    not represented. *)
Record JsError := mkError { message : jsstring }.

(** The outcome of an expression that may throw. *)
Inductive result (A : Type) : Type :=
| Ok (a : A)
| Throw (e : JsError).
Arguments Ok {A} a.
Arguments Throw {A} e.

(** JSON values.  A number is kept as the rational its literal denotes. *)
#[warnings="-register-all"] Inductive json : Type :=
| JNull
| JBool (b : bool)
| JNum (q : Q)
| JStr (s : jsstring)
| JArr (items : list json)
| JObj (fields : list (jsstring * json)).

(** Own-property lookup in the field list of an object. *)
Fixpoint lookup (k : jsstring) (fields : list (jsstring * json)) : option json :=
  match fields with
  | [] => None
  | (k', v) :: rest => if jsstring_eqb k k' then Some v else lookup k rest
  end.

(** [v.k] for a JSON value [v] that is neither [null] nor [undefined] and a
    key [k] that no prototype defines: only objects have such a property. *)
Definition prop (k : jsstring) (v : json) : option json :=
  match v with
  | JObj fields => lookup k fields
  | _ => None
  end.

(** A field of an object literal handed to [JSON.stringify]: a field whose
    value is [undefined] is left out. *)
Definition field (k : jsstring) (v : option json) : list (jsstring * json) :=
  match v with
  | Some j => [(k, j)]
  | None => []
  end.

(** [response.ok]: the status is in the range 200-299. *)
Definition status_ok (status : N) : bool :=
  ((200 <=? status) && (status <=? 299))%N.

(** What [fetch] resolves to, as far as the two programs read it.  [text]
    and [json] are the outcomes of [response.text()] and [response.json()];
    [B] is the type given to the parsed body. *)
Record Response (B : Type) := mkResponse {
  status : N;
  statusText : jsstring;
  text : result jsstring;
  json_body : result B
}.
Arguments mkResponse {B}.
Arguments status {B}.
Arguments statusText {B}.
Arguments text {B}.
Arguments json_body {B}.

Definition ok {B} (r : Response B) : bool := status_ok (status r).

(** [await fetch(...)] either rejects with an error or resolves. *)
Inductive FetchOutcome (B : Type) : Type :=
| Rejects (e : JsError)
| Resolves (r : Response B).
Arguments Rejects {B} e.
Arguments Resolves {B} r.

Record FetchRequest := mkRequest {
  url : jsstring;
  http_method : jsstring;
  headers : list (jsstring * jsstring);
  body : json
}.

(** The four fields of the chat-completions request body.  [messages] is
    [None] when the value given to [JSON.stringify] is [undefined]. *)
Definition completions_body (messages : option json) : json :=
  JObj (  [(lit "model", JStr (lit "meta/llama-3.1-70b-instruct"))]
       ++ field (lit "messages") messages
       ++ [(lit "temperature", JNum (7 # 10)%Q);
           (lit "max_tokens", JNum (1024 # 1)%Q)]).

End Js.

Import Js.

(* ================================================================= *)
(** ** The shared data model *)

(** [type Role = 'user' | 'assistant' | 'system'] *)
Inductive Role : Type := user | assistant | system.

Definition Role_eq_dec (a b : Role) : {a = b} + {a <> b}.
Proof. decide equality. Defined.

Definition role_string (r : Role) : jsstring :=
  match r with
  | user => lit "user"
  | assistant => lit "assistant"
  | system => lit "system"
  end.

(** [interface ChatMessage]: a turn of the transcript view model.
    [created_at] is optional. *)
Record ChatMessage := mkChatMessage {
  id : jsstring;
  role : Role;
  content : jsstring;
  created_at : option jsstring
}.

Definition ChatMessage_eq_dec (a b : ChatMessage) : {a = b} + {a <> b}.
Proof.
  decide equality.
  - decide equality. apply jsstring_eq_dec.
  - apply jsstring_eq_dec.
  - apply Role_eq_dec.
  - apply jsstring_eq_dec.
Defined.

(** [getSessionId()]: the one session shared by every client. *)
Definition getSessionId : jsstring := lit "00000000-0000-0000-0000-000000000000".

(* ================================================================= *)
(** ** The persistence store *)

Module Store.

(** A row of the [chats] table. *)
Record Row := mkRow {
  row_id : jsstring;
  row_session_id : jsstring;
  row_role : Role;
  row_content : jsstring;
  row_created_at : jsstring
}.

(** The object given to [insert]. *)
Record Payload := mkPayload {
  session_id : jsstring;
  payload_role : Role;
  payload_content : jsstring
}.

Definition StoreError := jsstring.

(** What the service decides for one insert: it assigns an id and a creation
    time, or it refuses with an error. *)
Inductive Outcome : Type :=
| Assigned (new_id createdAt : jsstring)
| Refused (err : StoreError).

(** The [{ data, error }] object an awaited query resolves to. *)
Record PostgrestResult := mkResult {
  data : option Row;
  error : option StoreError
}.

Definition Table := list Row.

(** Modelled from the spec: the Persistence Store behind [./lib/supabase],
    which is not among the sources.  [append] inserts one turn, the store
    assigning [id] and [createdAt]; the table is append-only and a refused
    insert leaves it as it was.  The query resolves (it never rejects) to
    [{ data, error }]; [data] carries the stored row only when the query asked
    for it with [.select().single()]. *)
Definition insert (o : Outcome) (p : Payload) (returning : bool) (t : Table)
  : PostgrestResult * Table :=
  match o with
  | Assigned new_id createdAt =>
      let row := mkRow new_id (session_id p) (payload_role p) (payload_content p) createdAt in
      (mkResult (if returning then Some row else None) None, t ++ [row])
  | Refused err => (mkResult None (Some err), t)
  end.

End Store.

(* ================================================================= *)
(** ** The completion provider's success payload *)

Module Provider.

(** [resData] is untyped in the source.  It is given the shape of the
    provider's success payload, every level optional: [None] stands for a field
    that is absent or [null]. *)
Record Message := mkMessage { content : option jsstring }.
Record Choice := mkChoice { message : option Message }.
Record Completion := mkCompletion { choices : option (list Choice) }.

End Provider.

(* ================================================================= *)
(** ** The client: [src/App.tsx] *)

Module App.

(** The React state read and written by [handleSend]. *)
Record AppState := mkAppState {
  messages : list ChatMessage;
  input : jsstring;
  isLoading : bool
}.

(** What a run of the handler does to the outside, in order. *)
Inductive Event : Type :=
| PreventDefault
| StoreInsert (p : Store.Payload) (returning : bool)
| Fetch (req : FetchRequest)
| ConsoleError (label : jsstring) (e : JsError)
| ConsoleWarn (label : jsstring) (e : Store.StoreError).

(** The component state, the [chats] table and the trace of effects. *)
Record Sys := mkSys {
  app : AppState;
  table : Store.Table;
  trace : list Event
}.

(** What the environment answers during one run. *)
Record World := mkWorld {
  (** the first [crypto.randomUUID()], for the optimistic user turn *)
  uuid_user : jsstring;
  (** the second [crypto.randomUUID()], for a locally synthesized turn *)
  uuid_local : jsstring;
  (** the store's decision on the user turn *)
  user_append : Store.Outcome;
  (** what the completion request resolves to *)
  completion : FetchOutcome Provider.Completion;
  (** the store's decision on the assistant turn *)
  assistant_append : Store.Outcome;
  (** the [TypeError] the engine raises on reading index 0 of [undefined] *)
  index_of_undefined : JsError
}.

(** A computation over [Sys] that may throw; the state reached before a
    throw is kept. *)
Definition M (A : Type) : Type := Sys -> result A * Sys.

Definition ret {A} (a : A) : M A := fun s => (Ok a, s).

Definition bind {A B} (m : M A) (f : A -> M B) : M B :=
  fun s =>
    match m s with
    | (Ok a, s') => f a s'
    | (Throw e, s') => (Throw e, s')
    end.

Definition throw {A} (e : JsError) : M A := fun s => (Throw e, s).

Definition lift {A} (r : result A) : M A := fun s => (r, s).

Declare Scope app_scope.
Delimit Scope app_scope with app.
Notation "x <- m ;; k" := (bind m (fun x => k))
  (at level 61, m at next level, right associativity) : app_scope.
Notation "m ;;; k" := (bind m (fun _ => k))
  (at level 61, right associativity) : app_scope.
Local Open Scope app_scope.

(** [try { body } catch (error) { handler } finally { fin }] *)
Definition try_catch_finally (body : M unit) (handler : JsError -> M unit)
  (fin : M unit) : M unit :=
  fun s =>
    match body s with
    | (Ok _, s1) => fin s1
    | (Throw e, s1) =>
        match handler e s1 with
        | (Ok _, s2) => fin s2
        | (Throw e', s2) =>
            match fin s2 with
            | (Ok _, s3) => (Throw e', s3)
            | thrown => thrown
            end
        end
    end.

Definition emit (ev : Event) : M unit :=
  fun s => (Ok tt, mkSys (app s) (table s) (trace s ++ [ev])).

Definition update (f : AppState -> AppState) : M unit :=
  fun s => (Ok tt, mkSys (f (app s)) (table s) (trace s)).

(** [setMessages(prev => f(prev))] *)
Definition setMessages (f : list ChatMessage -> list ChatMessage) : M unit :=
  update (fun st => mkAppState (f (messages st)) (input st) (isLoading st)).

Definition setInput (v : jsstring) : M unit :=
  update (fun st => mkAppState (messages st) v (isLoading st)).

Definition setIsLoading (v : bool) : M unit :=
  update (fun st => mkAppState (messages st) (input st) v).

(** [await supabase.from('chats').insert(p)], with [.select().single()] when
    [returning]. *)
Definition supabase_insert (o : Store.Outcome) (p : Store.Payload)
  (returning : bool) : M Store.PostgrestResult :=
  fun s =>
    let (r, t') := Store.insert o p returning (table s) in
    (Ok r, mkSys (app s) t' (trace s ++ [StoreInsert p returning])).

(** [await fetch(url, init)] *)
Definition fetch (o : FetchOutcome Provider.Completion) (req : FetchRequest)
  : M (Response Provider.Completion) :=
  emit (Fetch req) ;;;
  match o with
  | Rejects e => throw e
  | Resolves r => ret r
  end.

(** An entry of the list sent to the provider: [{ role, content }]. *)
Record ApiMessage := mkApiMessage {
  api_role : Role;
  api_content : jsstring
}.


Definition api_json (m : ApiMessage) : json :=
  JObj [(lit "role", JStr (role_string (api_role m)));
        (lit "content", JStr (api_content m))].

(** [m => ({ role: m.role, content: m.content })] *)
Definition to_api (m : ChatMessage) : ApiMessage :=
  mkApiMessage (role m) (content m).

Definition system_preamble : ApiMessage :=
  mkApiMessage system (lit "You are a helpful, concise AI assistant.").

(** [const apiMessages = [ {system}, ...messages.map(...), {user} ]] *)
Definition apiMessages (messages : list ChatMessage) (userMsgContent : jsstring)
  : list ApiMessage :=
  [system_preamble] ++ map to_api messages ++ [mkApiMessage user userMsgContent].

(** The request of step 3; [key] is [import.meta.env.VITE_NVIDIA_API_KEY]. *)
Definition completion_request (key : option jsstring) (msgs : list ApiMessage)
  : FetchRequest :=
  mkRequest (lit "/api/nvidia/v1/chat/completions") (lit "POST")
    [(lit "Content-Type", lit "application/json");
     (lit "Authorization", lit "Bearer " ++ template key)]
    (completions_body (Some (JArr (map api_json msgs)))).

Definition fallback_reply : jsstring := lit "Sorry, I couldn't formulate a response.".

(** [resData.choices[0]?.message?.content || fallback_reply].  Indexing a
    missing [choices] throws; past the index every step is optional. *)
Definition assistantMsgContent (w : World) (resData : Provider.Completion)
  : result jsstring :=
  match Provider.choices resData with
  | None => Throw (index_of_undefined w)
  | Some cs =>
      let first := nth_error cs 0 in
      let msg := match first with Some c => Provider.message c | None => None end in
      let text := match msg with Some m => Provider.content m | None => None end in
      Ok (match text with Some t => or_else t fallback_reply | None => fallback_reply end)
  end.

(** [savedAssistantMsg as ChatMessage] *)
Definition as_ChatMessage (r : Store.Row) : ChatMessage :=
  mkChatMessage (Store.row_id r) (Store.row_role r) (Store.row_content r)
    (Some (Store.row_created_at r)).

Section HandleSend.

Variable key : option jsstring.
Variable w : World.

(** The body of the [try] block.  [messages] is the list the handler closed
    over, the view model as it was when the form was submitted. *)
Definition try_body (messages : list ChatMessage) (userMsgContent : jsstring)
  : M unit :=
  (* 1. Save user message; the result is not looked at *)
  _ <- supabase_insert (user_append w)
         (Store.mkPayload getSessionId user userMsgContent) false ;;
  (* 2. Prepare conversation history *)
  let msgs := apiMessages messages userMsgContent in
  (* 3. Call the completion endpoint *)
  response <- fetch (completion w) (completion_request key msgs) ;;
  if negb (ok response) then
    throw (mkError (lit "Nvidia API error: " ++ number_to_string (status response)
                      ++ lit " " ++ statusText response))
  else
    resData <- lift (json_body response) ;;
    reply <- lift (assistantMsgContent w resData) ;;
    (* 4. Save assistant response *)
    saved <- supabase_insert (assistant_append w)
               (Store.mkPayload getSessionId assistant reply) true ;;
    match Store.error saved with
    | Some supabaseError =>
        emit (ConsoleWarn (lit "Failed to insert assistant message:") supabaseError)
    | None => ret tt
    end ;;;
    (* 5. Update UI *)
    match Store.data saved with
    | Some savedAssistantMsg =>
        setMessages (fun prev => prev ++ [as_ChatMessage savedAssistantMsg])
    | None =>
        setMessages (fun prev =>
          prev ++ [mkChatMessage (uuid_local w) assistant reply None])
    end.

(** The text shown for an error caught by the handler. *)
Definition error_content (error : JsError) : jsstring :=
  let errMsg := or_else (message error)
                  (lit "An error occurred while processing your request.") in
  let errMsg := if jsstring_eqb errMsg (lit "Failed to fetch")
                then lit "Failed to connect to the API. This might be a CORS issue or network offline."
                else errMsg in
  lit "Error: " ++ errMsg.

(** The [catch] block. *)
Definition catch_block (error : JsError) : M unit :=
  emit (ConsoleError (lit "Error in chat flow:") error) ;;;
  setMessages (fun prev =>
    prev ++ [mkChatMessage (uuid_local w) assistant (error_content error) None]).

(** [const handleSend = async (e) => { ... }], run to completion from [s]. *)
Definition handleSend : M unit :=
  fun s =>
    let st := app s in
    (emit PreventDefault ;;;
     if negb (truthy (trim (input st))) || isLoading st then ret tt
     else
       let userMsgContent := trim (input st) in
       setInput [] ;;;
       setIsLoading true ;;;
       (* Optimistic UI update for user message *)
       let tempUserId := uuid_user w in
       let newUserMsg := mkChatMessage tempUserId user userMsgContent None in
       setMessages (fun prev => prev ++ [newUserMsg]) ;;;
       try_catch_finally (try_body (messages st) userMsgContent)
         catch_block (setIsLoading false)) s.

(** The state a submission ends in, started with an empty trace. *)
Definition submit (st : AppState) (t : Store.Table) : Sys :=
  snd (handleSend (mkSys st t [])).

End HandleSend.

End App.

(* ================================================================= *)
(** ** The proxy: [api/chat.js] *)

Module Gateway.

(** The two variables of [process.env] that the handler reads. *)
Record ProcessEnv := mkEnv {
  VITE_NVIDIA_API_KEY : option jsstring;
  NVIDIA_API_KEY : option jsstring
}.

(** [req]: its method and its parsed body ([None] for [undefined]). *)
Record Req := mkReq {
  method : jsstring;
  req_body : option json
}.

Inductive ResBody : Type :=
| Ended
| JsonBody (j : json).

(** What [res] has been told by the time the handler returns. *)
Record Res := mkRes {
  statusCode : N;
  res_headers : list (jsstring * jsstring);
  res_body : ResBody
}.

(** What the host answers during one call. *)
Record Host := mkHost {
  env : ProcessEnv;
  (** what [fetch] resolves to for a given request *)
  upstream : FetchRequest -> FetchOutcome json;
  (** the [TypeError] the engine raises on destructuring [undefined] or [null] *)
  destructure_nullish : JsError
}.

(** The outcome of one call: the response, the request forwarded upstream if
    one was made, and the error logged if one was caught. *)
Record Run := mkRun {
  response : Res;
  forwarded : option FetchRequest;
  logged : option JsError
}.

(** [a || b] on values that may be [undefined]. *)
Definition or_undefined (a b : option jsstring) : option jsstring :=
  match a with
  | Some s => if truthy s then a else b
  | None => b
  end.

(** [!v] *)
Definition falsy (v : option jsstring) : bool :=
  match v with
  | Some s => negb (truthy s)
  | None => true
  end.

(** The four [res.setHeader] calls. *)
Definition cors_headers : list (jsstring * jsstring) :=
  [(lit "Access-Control-Allow-Credentials", lit "true");
   (lit "Access-Control-Allow-Origin", lit "*");
   (lit "Access-Control-Allow-Methods", lit "GET,OPTIONS,PATCH,DELETE,POST,PUT");
   (lit "Access-Control-Allow-Headers",
    lit "X-CSRF-Token, X-Requested-With, Accept, Accept-Version, Content-Length, Content-MD5, Content-Type, Date, X-Api-Version, Authorization")].

(** [res.status(code).json(j)] *)
Definition respond_json (code : N) (j : json) : Res :=
  mkRes code cors_headers (JsonBody j).

(** [{ error: msg }] *)
Definition error_object (msg : jsstring) : json :=
  JObj [(lit "error", JStr msg)].

(** [const { messages } = req.body] *)
Definition destructure_messages (h : Host) (b : option json) : result (option json) :=
  match b with
  | None => Throw (destructure_nullish h)
  | Some JNull => Throw (destructure_nullish h)
  | Some v => Ok (prop (lit "messages") v)
  end.

(** The request sent to the provider. *)
Definition upstream_request (apiKey : jsstring) (messages : option json) : FetchRequest :=
  mkRequest (lit "https://integrate.api.nvidia.com/v1/chat/completions") (lit "POST")
    [(lit "Content-Type", lit "application/json");
     (lit "Authorization", lit "Bearer " ++ apiKey)]
    (completions_body messages).

(** [process.env.VITE_NVIDIA_API_KEY || process.env.NVIDIA_API_KEY] *)
Definition resolve_key (e : ProcessEnv) : option jsstring :=
  or_undefined (VITE_NVIDIA_API_KEY e) (NVIDIA_API_KEY e).

(** The [try] block: what it returns or throws, and the request it made. *)
Definition try_block (h : Host) (req : Req) : result Res * option FetchRequest :=
  let apiKey := resolve_key (env h) in
  if falsy apiKey then
    (Ok (respond_json 500
           (error_object (lit "Backend Configuration Error: NVIDIA API Key is missing on Vercel."))),
     None)
  else
    match destructure_messages h (req_body req) with
    | Throw e => (Throw e, None)
    | Ok messages =>
        let r := upstream_request (template apiKey) messages in
        (match upstream h r with
         | Rejects e => Throw e
         | Resolves response =>
             if negb (ok response) then
               match text response with
               | Throw e => Throw e
               | Ok errText =>
                   Ok (respond_json (status response)
                         (error_object (lit "Nvidia upstream error: "
                                          ++ number_to_string (status response)
                                          ++ lit " " ++ errText)))
               end
             else
               match json_body response with
               | Throw e => Throw e
               | Ok data => Ok (respond_json 200 data)
               end
         end, Some r)
    end.

(** [export default async function handler(req, res)] *)
Definition handler (h : Host) (req : Req) : Run :=
  if jsstring_eqb (method req) (lit "OPTIONS") then
    mkRun (mkRes 200 cors_headers Ended) None None
  else if negb (jsstring_eqb (method req) (lit "POST")) then
    mkRun (respond_json 405 (error_object (lit "Method not allowed. Use POST."))) None None
  else
    match try_block h req with
    | (Ok res, sent) => mkRun res sent None
    | (Throw error, sent) =>
        mkRun (respond_json 500
                 (JObj [(lit "error", JStr (lit "Internal Server Error fetching from Nvidia"));
                        (lit "details", JStr (message error))]))
              sent (Some error)
    end.

End Gateway.

(* ================================================================= *)
(** ** Notions used in the statements *)

Import App.

(** The guard of [handleSend] lets a submission through: the trimmed input is
    not empty and no submission is in flight. *)
Definition accepted (st : AppState) : Prop :=
  trim (input st) <> [] /\ isLoading st = false.

(** The optimistic user turn of a submission. *)
Definition user_turn (w : World) (st : AppState) : ChatMessage :=
  mkChatMessage (uuid_user w) user (trim (input st)) None.

Definition user_payload (st : AppState) : Store.Payload :=
  Store.mkPayload getSessionId user (trim (input st)).

Definition assistant_payload (c : jsstring) : Store.Payload :=
  Store.mkPayload getSessionId assistant c.

(** The list sent to the provider by a submission from [st]. *)
Definition prompt (st : AppState) : list ApiMessage :=
  apiMessages (messages st) (trim (input st)).

(** The table once the user turn has been offered to the store. *)
Definition table_after_user (w : World) (st : AppState) (t : Store.Table) : Store.Table :=
  snd (Store.insert (user_append w) (user_payload st) false t).

Definition is_fetch (ev : Event) : bool :=
  match ev with Fetch _ => true | _ => false end.

Definition is_store_call (ev : Event) : bool :=
  match ev with StoreInsert _ _ => true | _ => false end.

Definition is_log (ev : Event) : bool :=
  match ev with ConsoleError _ _ | ConsoleWarn _ _ => true | _ => false end.

Definition is_assistant (m : ChatMessage) : bool :=
  if Role_eq_dec (role m) assistant then true else false.

(** How many assistant turns a view model shows. *)
Definition assistant_turns (l : list ChatMessage) : nat :=
  List.length (filter is_assistant l).

(** What the [try] block comes to before the assistant turn is stored: the
    reply text, or the error thrown. *)
Definition try_outcome (w : World) : result jsstring :=
  match completion w with
  | Rejects e => Throw e
  | Resolves r =>
      if negb (ok r) then
        Throw (mkError (lit "Nvidia API error: " ++ number_to_string (status r)
                          ++ lit " " ++ statusText r))
      else
        match json_body r with
        | Throw e => Throw e
        | Ok d => assistantMsgContent w d
        end
  end.

(** Gateway.complete fails: the request is rejected (a fetch-level failure),
    or it resolves with a status outside 200-299. *)
Inductive GatewayFails (w : World) : JsError -> Prop :=
| fetch_failure e :
    completion w = Rejects e -> GatewayFails w e
| bad_status r :
    completion w = Resolves r -> ok r = false ->
    GatewayFails w
      (mkError (lit "Nvidia API error: " ++ number_to_string (status r)
                  ++ lit " " ++ statusText r)).

(** [choices[0].message.content] of a payload that has one. *)
Definition completion_text (d : Provider.Completion) : option jsstring :=
  match Provider.choices d with
  | Some (c :: _) =>
      match Provider.message c with
      | Some m => Provider.content m
      | None => None
      end
  | _ => None
  end.

(** Gateway.complete succeeds with completion text [c]. *)
Inductive GatewayReturns (w : World) (c : jsstring) : Prop :=
| returns r d :
    completion w = Resolves r -> ok r = true -> json_body r = Ok d ->
    completion_text d = Some c -> c <> [] ->
    GatewayReturns w c.

(** A success payload with one choice whose content is [c]. *)
Definition one_choice (c : option jsstring) : Provider.Completion :=
  Provider.mkCompletion (Some [Provider.mkChoice (Some (Provider.mkMessage c))]).

(** A response with status 200 and parsed body [d]. *)
Definition http_200 (d : Provider.Completion) : FetchOutcome Provider.Completion :=
  Resolves (mkResponse 200%N (lit "OK") (Ok []) (Ok d)).

(** A response with the given status line and no readable body. *)
Definition http_status (code : N) (reason : jsstring) : FetchOutcome Provider.Completion :=
  Resolves (mkResponse code reason (Ok reason)
              (Throw (mkError (lit "Unexpected token in JSON")))).

Definition hello_state : AppState := mkAppState [] (lit "hello") false.

(** The all-success scenario of the specification: the store assigns u1/T1 to
    the user turn and a1/T2 to the assistant turn, the completion is
    "Hi there!".  The local ids and the engine's error text are left open. *)
Definition scenario (uid ulocal : jsstring) (e : JsError) : World :=
  mkWorld uid ulocal
    (Store.Assigned (lit "u1") (lit "T1"))
    (http_200 (one_choice (Some (lit "Hi there!"))))
    (Store.Assigned (lit "a1") (lit "T2"))
    e.

(** What a turn shows of itself in the scenario's expected view model. *)
Definition shown (m : ChatMessage) : jsstring * Role * jsstring :=
  (id m, role m, content m).

Definition sample_uuid_1 : jsstring := lit "3b241101-e2bb-4255-8caf-4136c566a962".
Definition sample_uuid_2 : jsstring := lit "9c0e8a5d-7f1b-4c2e-a3d4-5b6c7d8e9f00".

Definition v8_index_error : JsError :=
  mkError (lit "Cannot read properties of undefined (reading '0')").

Definition sample_world : World := scenario sample_uuid_1 sample_uuid_2 v8_index_error.

(** The scenario with the user turn refused by the store. *)
Definition user_refused (uid ulocal : jsstring) (e : JsError) : World :=
  mkWorld uid ulocal
    (Store.Refused (lit "insert failed"))
    (http_200 (one_choice (Some (lit "Hi there!"))))
    (Store.Assigned (lit "a1") (lit "T2"))
    e.

(** The scenario with the assistant turn refused by the store. *)
Definition assistant_refused : World :=
  mkWorld sample_uuid_1 sample_uuid_2
    (Store.Assigned (lit "u1") (lit "T1"))
    (http_200 (one_choice (Some (lit "Hi there!"))))
    (Store.Refused (lit "insert failed"))
    v8_index_error.

(** The scenario with a 2xx response whose body is [{}]: no [choices]. *)
Definition no_choices : World :=
  mkWorld sample_uuid_1 sample_uuid_2
    (Store.Assigned (lit "u1") (lit "T1"))
    (http_200 (Provider.mkCompletion None))
    (Store.Assigned (lit "a1") (lit "T2"))
    v8_index_error.

(** The scenario with the provider answering 502 Bad Gateway. *)
Definition bad_gateway : World :=
  mkWorld sample_uuid_1 sample_uuid_2
    (Store.Assigned (lit "u1") (lit "T1"))
    (http_status 502%N (lit "Bad Gateway"))
    (Store.Assigned (lit "a1") (lit "T2"))
    v8_index_error.

(** The provider answering 502 with an empty status text, as over HTTP/2,
    and the body "Bad Gateway". *)
Definition bad_gateway_no_reason : World :=
  mkWorld sample_uuid_1 sample_uuid_2
    (Store.Assigned (lit "u1") (lit "T1"))
    (Resolves (mkResponse 502%N [] (Ok (lit "Bad Gateway"))
                 (Throw (mkError (lit "Unexpected token in JSON")))))
    (Store.Assigned (lit "a1") (lit "T2"))
    v8_index_error.


(** [w] with another decision of the store on the user turn. *)
Definition with_user_append (w : World) (o : Store.Outcome) : World :=
  mkWorld (uuid_user w) (uuid_local w) o (completion w) (assistant_append w)
    (index_of_undefined w).

(** *** The proxy's contract, in the specification's words *)

Module GatewaySpec.

Import Gateway.

(** The failures of the specification's taxonomy, as the proxy meets them. *)
Inductive Failure : Type :=
| ConfigurationError
| InternalError (e : JsError)
| UpstreamError (code : N) (detail : jsstring).

Inductive Outcome : Type :=
| Completed (data : json)
| Failed (f : Failure).


(** The [messages] field of the caller's body, if it has one. *)
Definition messages_field (b : option json) : option json :=
  match b with
  | Some v => prop (lit "messages") v
  | None => None
  end.

(** What happens to a POST, told from the host's answers alone. *)
Inductive Handles (h : Host) (req : Req) : Outcome -> Prop :=
| key_missing :
    falsy (resolve_key (env h)) = true ->
    Handles h req (Failed ConfigurationError)
| body_unreadable k e :
    resolve_key (env h) = Some k -> k <> [] ->
    destructure_messages h (req_body req) = Throw e ->
    Handles h req (Failed (InternalError e))
| upstream_unreachable k m e :
    resolve_key (env h) = Some k -> k <> [] ->
    destructure_messages h (req_body req) = Ok m ->
    upstream h (upstream_request k m) = Rejects e ->
    Handles h req (Failed (InternalError e))
| upstream_refuses k m r detail :
    resolve_key (env h) = Some k -> k <> [] ->
    destructure_messages h (req_body req) = Ok m ->
    upstream h (upstream_request k m) = Resolves r ->
    ok r = false -> text r = Ok detail ->
    Handles h req (Failed (UpstreamError (status r) detail))
| upstream_refuses_unread k m r e :
    resolve_key (env h) = Some k -> k <> [] ->
    destructure_messages h (req_body req) = Ok m ->
    upstream h (upstream_request k m) = Resolves r ->
    ok r = false -> text r = Throw e ->
    Handles h req (Failed (InternalError e))
| upstream_garbled k m r e :
    resolve_key (env h) = Some k -> k <> [] ->
    destructure_messages h (req_body req) = Ok m ->
    upstream h (upstream_request k m) = Resolves r ->
    ok r = true -> json_body r = Throw e ->
    Handles h req (Failed (InternalError e))
| upstream_completes k m r data :
    resolve_key (env h) = Some k -> k <> [] ->
    destructure_messages h (req_body req) = Ok m ->
    upstream h (upstream_request k m) = Resolves r ->
    ok r = true -> json_body r = Ok data ->
    Handles h req (Completed data).

(** A host whose key is set and whose provider always answers [answer]. *)
Definition sample_host (answer : FetchOutcome json) : Host :=
  mkHost (mkEnv None (Some (lit "nvapi-secret")))
    (fun _ => answer)
    (mkError (lit "Cannot destructure property 'messages' of 'req.body' as it is undefined.")).

Definition sample_messages : json :=
  JArr [JObj [(lit "role", JStr (lit "user")); (lit "content", JStr (lit "hello"))]].

(** A caller's body that also tries to choose the model and the budget. *)
Definition sample_req : Req :=
  mkReq (lit "POST")
    (Some (JObj [(lit "model", JStr (lit "another/model"));
                 (lit "messages", sample_messages);
                 (lit "max_tokens", JNum (999999 # 1)%Q)])).

Definition sample_answer : FetchOutcome json :=
  Resolves (mkResponse 200%N (lit "OK") (Ok (lit "{}")) (Ok (JObj []))).

End GatewaySpec.

(* ================================================================= *)
(** ** The rest of the component *)

Module Ui.

(** [onChange={(e) => setInput(e.target.value)}] on the text field. *)
Definition onChange (value : jsstring) (st : AppState) : AppState :=
  mkAppState (messages st) value (isLoading st).

(** [disabled={!input.trim() || isLoading}] on the submit button. *)
Definition send_disabled (st : AppState) : bool :=
  negb (truthy (trim (input st))) || isLoading st.

(** The [{ data, error }] object the select query resolves to. *)
Record SelectResult := mkSelect {
  select_data : option (list Store.Row);
  select_error : option Store.StoreError
}.

(** [const fetchChats = async () => { ... }], given what the query resolved
    to: the new component state and what was written to the console. *)
Definition fetchChats (answer : SelectResult) (st : AppState)
  : AppState * list (jsstring * Store.StoreError) :=
  match select_error answer with
  | Some error => (st, [(lit "Error fetching chats:", error)])
  | None =>
      match select_data answer with
      | Some data =>
          (mkAppState (map as_ChatMessage data) (input st) (isLoading st), [])
      | None => (st, [])
      end
  end.

(** One submission of a session: what the user typed and what the
    environment answered. *)
Record Submission := mkSubmission {
  typed : jsstring;
  world : World
}.

(** The user types [typed x] and submits the form; the component state and
    the table the run ends in. *)
Definition type_and_send (key : option jsstring) (s : AppState * Store.Table)
  (x : Submission) : AppState * Store.Table :=
  let r := submit key (world x) (onChange (typed x) (fst s)) (snd s) in
  (app r, table r).

(** Submissions made one after the other, each after the previous one has
    settled. *)
Definition session (key : option jsstring) (xs : list Submission)
  (s : AppState * Store.Table) : AppState * Store.Table :=
  fold_left (type_and_send key) xs s.

(** The [copiedId] state and the clipboard. *)
Record CopyState := mkCopy {
  clipboard : option jsstring;
  copiedId : option jsstring
}.

(** [copyToClipboard(text, id)] where [navigator.clipboard] exists, up to the
    timer it starts.  [written] tells whether the promise of [writeText] was
    fulfilled; it is not awaited, so a rejection changes nothing else. *)
Definition copyToClipboard (written : bool) (text id : jsstring) (c : CopyState)
  : CopyState :=
  mkCopy (if written then Some text else clipboard c) (Some id).

(** What [navigator.clipboard.writeText(text)] comes to. *)
Inductive ClipboardWrite : Type :=
| NoClipboard
| WriteRejected
| WriteDone.

(** A click on a copy button, [copyToClipboard(text, id)] as a whole.  Where
    [navigator.clipboard] is undefined the first statement throws, before
    [setCopiedId] and before the timer is started: [None], nothing changes. *)
Definition click_copy (o : ClipboardWrite) (text id : jsstring) (c : CopyState)
  : option CopyState :=
  match o with
  | NoClipboard => None
  | WriteRejected => Some (copyToClipboard false text id c)
  | WriteDone => Some (copyToClipboard true text id c)
  end.

(** The timer's callback, [() => setCopiedId(null)]. *)
Definition copied_timeout (c : CopyState) : CopyState :=
  mkCopy (clipboard c) None.

(** [copiedId === id] *)
Definition isCopied (c : CopyState) (id : jsstring) : bool :=
  match copiedId c with
  | Some i => jsstring_eqb i id
  | None => false
  end.

(** [s.replace(/\n$/, '')]: one line feed at the very end is removed. *)
Definition strip_final_newline (s : jsstring) : jsstring :=
  match rev s with
  | 10%N :: r => rev r
  | _ => s
  end.

(** The [codeString] of a code block; [children] is the text of the block
    when the block has one. *)
Definition codeString (children : option jsstring) : jsstring :=
  match children with
  | Some raw => if truthy raw then strip_final_newline raw else []
  | None => []
  end.

(** [`code-${msg.id}-${codeString.substring(0, 10)}`] *)
Definition idStr (msg_id code : jsstring) : jsstring :=
  lit "code-" ++ msg_id ++ lit "-" ++ firstn 10 code.

End Ui.

(** *** Reading the session back from the store *)

Module Hydration.

Section ListTurns.

(** The store's order on creation times: [earlier a b] when [a] is not
    after [b]. *)
Variable earlier : jsstring -> jsstring -> bool.

Fixpoint insert_row (r : Store.Row) (l : list Store.Row) : list Store.Row :=
  match l with
  | [] => [r]
  | r' :: l' =>
      if earlier (Store.row_created_at r) (Store.row_created_at r')
      then r :: l
      else r' :: insert_row r l'
  end.

(** [.order('created_at', { ascending: true })], rows of equal time in the
    order they were stored. *)
Definition order_by_created_at (l : list Store.Row) : list Store.Row :=
  fold_right insert_row [] l.

(** Modelled from the spec: [listTurns] of the Persistence Store behind
    [./lib/supabase], which is not among the sources.  The query of
    [fetchChats], [.from('chats').select('*').eq('session_id', session)
    .order('created_at', { ascending: true })], answered without error: all
    the rows of the session in ascending creation order. *)
Definition select_chats (session : jsstring) (t : Store.Table) : Ui.SelectResult :=
  Ui.mkSelect
    (Some (order_by_created_at
             (filter (fun r => jsstring_eqb (Store.row_session_id r) session) t)))
    None.

(** The table is in ascending creation order. *)
Definition ascending (t : Store.Table) : Prop :=
  Sorted (fun a b => earlier (Store.row_created_at a) (Store.row_created_at b) = true) t.

End ListTurns.

(** The component state once [fetchChats] has run against table [t]. *)
Definition hydrate (earlier : jsstring -> jsstring -> bool) (t : Store.Table)
  (st : AppState) : AppState :=
  fst (Ui.fetchChats (select_chats earlier getSessionId t) st).

(** Creation times compared as numbers of the same width, digit by digit. *)
Fixpoint stamp_le (a b : jsstring) : bool :=
  match a, b with
  | [], _ => true
  | _ :: _, [] => false
  | x :: a', y :: b' => if (x <? y)%N then true else if (y <? x)%N then false else stamp_le a' b'
  end.

End Hydration.

(** *** The proxy's answer to each outcome *)

Module GatewayRun.

Import Gateway GatewaySpec.

(** The response that mirrors an outcome. *)
Definition reply (o : Outcome) : Res :=
  match o with
  | Completed data => respond_json 200 data
  | Failed ConfigurationError =>
      respond_json 500
        (error_object (lit "Backend Configuration Error: NVIDIA API Key is missing on Vercel."))
  | Failed (InternalError e) =>
      respond_json 500
        (JObj [(lit "error", JStr (lit "Internal Server Error fetching from Nvidia"));
               (lit "details", JStr (message e))])
  | Failed (UpstreamError code detail) =>
      respond_json code
        (error_object (lit "Nvidia upstream error: " ++ number_to_string code
                         ++ lit " " ++ detail))
  end.

(** The error written to the console for an outcome: the exception caught,
    if one was. *)
Definition console_error (o : Outcome) : option JsError :=
  match o with
  | Failed (InternalError e) => Some e
  | _ => None
  end.

(** A host with the given two variables whose provider always answers
    [answer]. *)
Definition host_with (vite nvidia : option jsstring) (answer : FetchOutcome json) : Host :=
  mkHost (mkEnv vite nvidia) (fun _ => answer)
    (mkError (lit "Cannot destructure property 'messages' of 'req.body' as it is undefined.")).

End GatewayRun.

(* ================================================================= *)
(** ** Properties *)

Arguments lit : simpl never.
Arguments trim : simpl never.
Arguments number_to_string : simpl never.

(** *** Strings *)

Lemma trimStart_all_ws s : forallb is_ws s = true -> trimStart s = [].
Proof.
  induction s as [|c s IH]; simpl; [reflexivity|].
  intros H. apply andb_true_iff in H as [Hc Hs]. rewrite Hc. auto.
Qed.

Lemma trimStart_empty_all_ws s : trimStart s = [] -> forallb is_ws s = true.
Proof.
  induction s as [|c s IH]; simpl; [reflexivity|].
  destruct (is_ws c); [exact IH | discriminate].
Qed.

(** [trim] returns the empty string exactly on the strings made of white
    space only. *)
Lemma trim_empty_iff s : trim s = [] <-> forallb is_ws s = true.
Proof.
  split.
  - unfold trim, trimEnd. intros H.
    apply (f_equal (@rev N)) in H. rewrite rev_involutive in H. simpl in H.
    apply trimStart_empty_all_ws in H.
    rewrite forallb_forall in H.
    assert (Hall : forallb is_ws (trimStart s) = true).
    { apply forallb_forall. intros x Hx. apply H. now apply in_rev in Hx. }
    clear H. induction s as [|c s IH]; [reflexivity|].
    simpl in *. destruct (is_ws c) eqn:Hc.
    + auto.
    + simpl in Hall. rewrite Hc in Hall. discriminate.
  - intros H. unfold trim, trimEnd. rewrite (trimStart_all_ws s H). reflexivity.
Qed.

Lemma truthy_nonempty s : s <> [] -> truthy s = true.
Proof. destruct s; [congruence | reflexivity]. Qed.

Lemma or_else_nonempty a b : b <> [] -> or_else a b <> [].
Proof. unfold or_else. destruct a; simpl; [auto | discriminate]. Qed.

Lemma lit_app a b : lit a ++ lit b = lit (a ++ b).
Proof.
  unfold lit. rewrite <- map_app. f_equal.
  induction a as [|c a IH]; simpl; [reflexivity | now rewrite IH].
Qed.

(** *** The run of an accepted submission *)

(** The state in which the [try] block is entered. *)
Lemma handleSend_accepted key w st t :
  accepted st ->
  handleSend key w (mkSys st t []) =
  try_catch_finally (try_body key w (messages st) (trim (input st)))
    (catch_block w) (setIsLoading false)
    (mkSys (mkAppState (messages st ++ [user_turn w st]) [] true) t [PreventDefault]).
Proof.
  intros [Hin Hl]. unfold handleSend, bind, emit. cbn [app table trace].
  rewrite (truthy_nonempty _ Hin), Hl. reflexivity.
Qed.

(** When the [try] block throws, it has offered the user turn to the store
    and sent the request, and nothing else. *)
Lemma try_body_throws key w msgs c s e :
  try_outcome w = Throw e ->
  try_body key w msgs c s =
  (Throw e,
   mkSys (app s)
     (snd (Store.insert (user_append w) (Store.mkPayload getSessionId user c) false (table s)))
     (trace s ++ [StoreInsert (Store.mkPayload getSessionId user c) false;
                  Fetch (completion_request key (apiMessages msgs c))])).
Proof.
  unfold try_outcome, try_body, bind, supabase_insert, fetch, bind, emit, throw, lift, ret.
  intros H.
  destruct (Store.insert (user_append w) _ false (table s)) as [r0 t'].
  cbn [app table trace snd].
  destruct (completion w) as [e0 | r].
  - inversion H; subst. rewrite <- app_assoc. reflexivity.
  - destruct (negb (ok r)).
    + inversion H; subst. rewrite <- app_assoc. reflexivity.
    + destruct (json_body r) as [d | e1].
      * rewrite H. rewrite <- app_assoc. reflexivity.
      * inversion H; subst. rewrite <- app_assoc. reflexivity.
Qed.

(** When the [try] block obtains a reply, it stores it and shows it. *)
Lemma try_body_replies key w msgs c s reply :
  try_outcome w = Ok reply ->
  try_body key w msgs c s =
  let t1 := snd (Store.insert (user_append w) (Store.mkPayload getSessionId user c) false (table s)) in
  let sent := [StoreInsert (Store.mkPayload getSessionId user c) false;
               Fetch (completion_request key (apiMessages msgs c));
               StoreInsert (assistant_payload reply) true] in
  match assistant_append w with
  | Store.Assigned new_id createdAt =>
      (Ok tt,
       mkSys (mkAppState
                (messages (app s) ++ [mkChatMessage new_id assistant reply (Some createdAt)])
                (input (app s)) (isLoading (app s)))
         (t1 ++ [Store.mkRow new_id getSessionId assistant reply createdAt])
         (trace s ++ sent))
  | Store.Refused err =>
      (Ok tt,
       mkSys (mkAppState
                (messages (app s) ++ [mkChatMessage (uuid_local w) assistant reply None])
                (input (app s)) (isLoading (app s)))
         t1
         (trace s ++ sent ++ [ConsoleWarn (lit "Failed to insert assistant message:") err]))
  end.
Proof.
  unfold try_outcome, try_body, bind, supabase_insert, fetch, bind, emit, throw, lift, ret,
    assistant_payload.
  intros H.
  destruct (Store.insert (user_append w) _ false (table s)) as [r0 t'].
  cbn [app table trace snd].
  destruct (completion w) as [e0 | r]; [discriminate|].
  destruct (negb (ok r)); [discriminate|].
  destruct (json_body r) as [d | e1]; [|discriminate].
  rewrite H.
  destruct (assistant_append w) as [new_id createdAt | err];
    cbn; repeat rewrite <- app_assoc; reflexivity.
Qed.

(** The end state of a submission whose [try] block throws. *)
Lemma submit_throws key w st t e :
  accepted st -> try_outcome w = Throw e ->
  submit key w st t =
  mkSys (mkAppState
           (messages st ++ [user_turn w st;
                            mkChatMessage (uuid_local w) assistant (error_content e) None])
           [] false)
    (table_after_user w st t)
    [PreventDefault; StoreInsert (user_payload st) false;
     Fetch (completion_request key (prompt st));
     ConsoleError (lit "Error in chat flow:") e].
Proof.
  intros Hacc H. unfold submit. rewrite (handleSend_accepted key w st t Hacc).
  unfold try_catch_finally. rewrite (try_body_throws key w _ _ _ e H).
  cbn. rewrite <- app_assoc. reflexivity.
Qed.

(** The end state of a submission whose [try] block obtains a reply. *)
Lemma submit_replies key w st t reply :
  accepted st -> try_outcome w = Ok reply ->
  submit key w st t =
  let sent := [PreventDefault; StoreInsert (user_payload st) false;
               Fetch (completion_request key (prompt st));
               StoreInsert (assistant_payload reply) true] in
  match assistant_append w with
  | Store.Assigned new_id createdAt =>
      mkSys (mkAppState
               (messages st ++ [user_turn w st;
                                mkChatMessage new_id assistant reply (Some createdAt)])
               [] false)
        (table_after_user w st t ++ [Store.mkRow new_id getSessionId assistant reply createdAt])
        sent
  | Store.Refused err =>
      mkSys (mkAppState
               (messages st ++ [user_turn w st;
                                mkChatMessage (uuid_local w) assistant reply None])
               [] false)
        (table_after_user w st t)
        (sent ++ [ConsoleWarn (lit "Failed to insert assistant message:") err])
  end.
Proof.
  intros Hacc H. unfold submit. rewrite (handleSend_accepted key w st t Hacc).
  unfold try_catch_finally. rewrite (try_body_replies key w _ _ _ reply H).
  destruct (assistant_append w); cbn; rewrite <- app_assoc; reflexivity.
Qed.

(** No [Error] thrown inside the [try] block escapes the handler. *)
Lemma handleSend_returns key w s : fst (handleSend key w s) = Ok tt.
Proof.
  unfold handleSend, bind, emit, ret. cbn [app].
  destruct (negb (truthy (trim (input (app s)))) || isLoading (app s)); [reflexivity|].
  unfold setInput, setIsLoading, setMessages, update, try_catch_finally, catch_block, bind, emit.
  cbn [app table trace].
  match goal with |- context [try_body ?k ?w ?m ?c ?s] => destruct (try_body k w m c s) as [[[]|e] s1] end;
    reflexivity.
Qed.

Lemma GatewayFails_throws w e : GatewayFails w e -> try_outcome w = Throw e.
Proof.
  intros [e0 H | r H Hok]; unfold try_outcome; rewrite H; [reflexivity|].
  rewrite Hok. reflexivity.
Qed.

Lemma assistantMsgContent_text w d c :
  completion_text d = Some c -> c <> [] -> assistantMsgContent w d = Ok c.
Proof.
  unfold completion_text, assistantMsgContent.
  destruct (Provider.choices d) as [[|ch cs]|]; try discriminate.
  cbn [nth_error]. destruct (Provider.message ch) as [m|]; [|discriminate].
  intros -> Hc. unfold or_else. rewrite (truthy_nonempty c Hc). reflexivity.
Qed.

Lemma GatewayReturns_replies w c : GatewayReturns w c -> try_outcome w = Ok c.
Proof.
  intros [r d H Hok Hd Ht Hc]. unfold try_outcome. rewrite H, Hok, Hd. cbn [negb].
  now apply assistantMsgContent_text.
Qed.

Lemma error_content_shape e :
  exists m, error_content e = lit "Error: " ++ m /\ m <> [].
Proof.
  unfold error_content.
  match goal with |- context [if ?b then _ else _] => destruct b end.
  - eexists; split; [reflexivity | discriminate].
  - eexists; split; [reflexivity|]. apply or_else_nonempty. discriminate.
Qed.

Lemma assistant_turns_app l l' :
  assistant_turns (l ++ l') = assistant_turns l + assistant_turns l'.
Proof. unfold assistant_turns. now rewrite filter_app, length_app. Qed.

(** *** Claims about the client *)

(** C6. A submission whose input is empty or made of white space only, or
    that is issued while another is in flight, is rejected before any effect:
    the component state (view model, input, in-flight flag) and the store are
    as they were, and the handler has made no store call and no request. *)
Theorem C6_rejected_submission_has_no_effect key w st t :
  forallb is_ws (input st) = true \/ isLoading st = true ->
  let s := submit key w st t in
  app s = st /\ table s = t /\ trace s = [PreventDefault]
  /\ existsb is_store_call (trace s) = false
  /\ existsb is_fetch (trace s) = false.
Proof.
  intros H.
  assert (Hguard : negb (truthy (trim (input st))) || isLoading st = true).
  { destruct H as [H | H].
    - apply trim_empty_iff in H. rewrite H. reflexivity.
    - rewrite H. apply orb_true_r. }
  unfold submit, handleSend, bind, emit, ret. cbn [app table trace].
  rewrite Hguard. cbn. destruct st; repeat split; reflexivity.
Qed.

(** A blank input, run through the theorem. *)
Lemma C6_rejected_submission_has_no_effect_witness :
  let st := mkAppState [] (lit "   ") false in
  let s := submit (Some (lit "k")) sample_world st [] in
  app s = st /\ table s = [] /\ trace s = [PreventDefault]
  /\ existsb is_store_call (trace s) = false
  /\ existsb is_fetch (trace s) = false.
Proof.
  apply (C6_rejected_submission_has_no_effect (Some (lit "k")) sample_world
           (mkAppState [] (lit "   ") false) []).
  left. reflexivity.
Defined.

(** C3, as the code has it.  When Gateway.complete fails (the request is
    rejected, or it resolves with a status outside 200-299), the view model
    gains the user turn and exactly one assistant turn, whose content is
    "Error: " followed by a non-empty message; the only store call is the one
    for the user turn.  For a 502 the content is
    "Error: Nvidia API error: 502 " followed by the status text of the
    response, so it is "Error: Nvidia API error: 502 Bad Gateway" exactly
    when that status text is "Bad Gateway"; the body is not read.  For the
    rejection "Failed to fetch" the content is the connectivity message. *)
Theorem C3_gateway_failure_shows_one_error_turn key w st t e :
  accepted st -> GatewayFails w e ->
  let s := submit key w st t in
  messages (app s)
    = messages st ++ [user_turn w st;
                      mkChatMessage (uuid_local w) assistant (error_content e) None]
  /\ assistant_turns (messages (app s)) = S (assistant_turns (messages st))
  /\ (exists m, error_content e = lit "Error: " ++ m /\ m <> [])
  /\ filter is_store_call (trace s) = [StoreInsert (user_payload st) false]
  /\ (forall r, completion w = Resolves r -> status r = 502%N ->
        error_content e = lit "Error: Nvidia API error: 502 " ++ statusText r
        /\ (error_content e = lit "Error: Nvidia API error: 502 Bad Gateway"
            <-> statusText r = lit "Bad Gateway"))
  /\ (completion w = Rejects (mkError (lit "Failed to fetch")) ->
        error_content e
          = lit "Error: Failed to connect to the API. This might be a CORS issue or network offline.").
Proof.
  intros Hacc Hfail s. subst s.
  rewrite (submit_throws key w st t e Hacc (GatewayFails_throws w e Hfail)).
  cbn [app messages trace].
  split; [reflexivity|]. split.
  { rewrite assistant_turns_app. cbn. lia. }
  split; [apply error_content_shape|]. split; [reflexivity|]. split.
  - intros r Hr Hs. destruct Hfail as [e0 H | r0 H Hok]; rewrite H in Hr; inversion Hr; subst.
    assert (Hc : error_content
                   (mkError (lit "Nvidia API error: " ++ number_to_string (status r)
                               ++ lit " " ++ statusText r))
                 = lit "Error: Nvidia API error: 502 " ++ statusText r).
    { rewrite Hs. unfold error_content, or_else, jsstring_eqb. cbn [message].
      destruct (jsstring_eq_dec _ _) as [E|_].
      - vm_compute in E. discriminate E.
      - vm_compute. reflexivity. }
    split; [exact Hc|]. rewrite Hc.
    change (lit "Error: Nvidia API error: 502 Bad Gateway")
      with (lit "Error: Nvidia API error: 502 " ++ lit "Bad Gateway").
    split; [apply app_inv_head | now intros ->].
  - intros Hr. destruct Hfail as [e0 H | r0 H Hok]; rewrite H in Hr; inversion Hr; subst.
    vm_compute. reflexivity.
Qed.

(** C3, as stated, fails: a 502 whose status text is empty and whose body is
    "Bad Gateway" is shown as "Error: Nvidia API error: 502 ", not as the
    designated text. *)
Lemma C3_bad_gateway_body_is_not_shown :
  messages (app (submit (Some (lit "k")) bad_gateway_no_reason hello_state []))
  = [mkChatMessage sample_uuid_1 user (lit "hello") None;
     mkChatMessage sample_uuid_2 assistant (lit "Error: Nvidia API error: 502 ") None]
  /\ messages (app (submit (Some (lit "k")) bad_gateway_no_reason hello_state []))
     <> [mkChatMessage sample_uuid_1 user (lit "hello") None;
         mkChatMessage sample_uuid_2 assistant
           (lit "Error: Nvidia API error: 502 Bad Gateway") None].
Proof.
  split; vm_compute; [reflexivity | intros H; discriminate H].
Qed.

(** The 502 Bad Gateway scenario, run through the theorem. *)
Lemma C3_gateway_failure_shows_one_error_turn_witness :
  messages (app (submit (Some (lit "k")) bad_gateway hello_state []))
  = [mkChatMessage sample_uuid_1 user (lit "hello") None;
     mkChatMessage sample_uuid_2 assistant
       (lit "Error: Nvidia API error: 502 Bad Gateway") None].
Proof.
  assert (Hacc : accepted hello_state) by (split; [discriminate | reflexivity]).
  assert (Hfail : GatewayFails bad_gateway
                    (mkError (lit "Nvidia API error: " ++ number_to_string 502%N
                                ++ lit " " ++ lit "Bad Gateway"))).
  { exact (bad_status bad_gateway
             (mkResponse 502%N (lit "Bad Gateway") (Ok (lit "Bad Gateway"))
                (Throw (mkError (lit "Unexpected token in JSON"))))
             eq_refl eq_refl). }
  destruct (C3_gateway_failure_shows_one_error_turn (Some (lit "k")) bad_gateway
              hello_state [] _ Hacc Hfail) as [Hm _].
  rewrite Hm. vm_compute. reflexivity.
Defined.

(** Every accepted submission sends exactly one request, with the prompt
    built from the view model the handler closed over. *)
Lemma accepted_submission_fetches_once key w st t :
  accepted st ->
  filter is_fetch (trace (submit key w st t))
  = [Fetch (completion_request key (prompt st))].
Proof.
  intros Hacc. destruct (try_outcome w) as [reply | e] eqn:H.
  - rewrite (submit_replies key w st t reply Hacc H).
    destruct (assistant_append w); reflexivity.
  - rewrite (submit_throws key w st t e Hacc H). reflexivity.
Qed.




(** C5. When Gateway.complete succeeds with text [c] and the store refuses
    the assistant turn, the view model still gains exactly one assistant
    turn, made locally (local id, no creation time) with content [c]; the
    refusal is reported with one console warning and nothing else: nothing is
    stored for the assistant, no error turn is shown, and the in-flight flag
    is cleared. *)
Theorem C5_assistant_persistence_failure_keeps_reply key w st t c err :
  accepted st -> GatewayReturns w c -> assistant_append w = Store.Refused err ->
  let s := submit key w st t in
  messages (app s)
    = messages st ++ [user_turn w st; mkChatMessage (uuid_local w) assistant c None]
  /\ assistant_turns (messages (app s)) = S (assistant_turns (messages st))
  /\ filter is_log (trace s)
     = [ConsoleWarn (lit "Failed to insert assistant message:") err]
  /\ filter is_store_call (trace s)
     = [StoreInsert (user_payload st) false; StoreInsert (assistant_payload c) true]
  /\ table s = table_after_user w st t
  /\ isLoading (app s) = false.
Proof.
  intros Hacc Hret Hstore s. subst s.
  rewrite (submit_replies key w st t c Hacc (GatewayReturns_replies w c Hret)), Hstore.
  cbn [app messages trace table isLoading].
  split; [reflexivity|]. split.
  { rewrite assistant_turns_app. cbn. lia. }
  repeat split; reflexivity.
Qed.

(** The scenario with the assistant turn refused, run through the theorem. *)
Lemma C5_assistant_persistence_failure_keeps_reply_witness :
  messages (app (submit (Some (lit "k")) assistant_refused hello_state []))
  = [mkChatMessage sample_uuid_1 user (lit "hello") None;
     mkChatMessage sample_uuid_2 assistant (lit "Hi there!") None].
Proof.
  assert (Hacc : accepted hello_state) by (split; [discriminate | reflexivity]).
  assert (Hret : GatewayReturns assistant_refused (lit "Hi there!")).
  { apply (returns assistant_refused (lit "Hi there!")
             (mkResponse 200%N (lit "OK") (Ok []) (Ok (one_choice (Some (lit "Hi there!")))))
             (one_choice (Some (lit "Hi there!"))));
      try reflexivity. discriminate. }
  destruct (C5_assistant_persistence_failure_keeps_reply (Some (lit "k")) assistant_refused
              hello_state [] (lit "Hi there!") (lit "insert failed") Hacc Hret eq_refl)
    as [Hm _].
  exact Hm.
Defined.

(** C2, as the code has it.  In the all-success scenario the final view model
    is the optimistic user turn, still under its locally generated id and
    without a creation time, followed by the assistant turn as the store
    returned it (id a1, created at T2).  The store holds both rows, u1 and
    a1; the id u1 is never read back. *)
Theorem C2_all_success_view_model key uid ulocal e :
  let s := submit key (scenario uid ulocal e) hello_state [] in
  messages (app s)
    = [mkChatMessage uid user (lit "hello") None;
       mkChatMessage (lit "a1") assistant (lit "Hi there!") (Some (lit "T2"))]
  /\ table s
    = [Store.mkRow (lit "u1") getSessionId user (lit "hello") (lit "T1");
       Store.mkRow (lit "a1") getSessionId assistant (lit "Hi there!") (lit "T2")].
Proof.
  split; vm_compute; reflexivity.
Qed.

(** C2, as stated, fails: with the local id that [crypto.randomUUID] gave the
    user turn, the final view model is not the expected one, whose user turn
    has id u1. *)
Lemma C2_user_turn_keeps_local_id :
  map shown (messages (app (submit (Some (lit "k")) sample_world hello_state [])))
  <> [(lit "u1", user, lit "hello"); (lit "a1", assistant, lit "Hi there!")].
Proof.
  vm_compute. intros H. discriminate H.
Qed.

(** C7, at a refused user turn.  The run logs nothing: its trace and its
    component state are those of the run in which the store accepted the user
    turn.  (The flow does proceed as on success; what is missing is the log
    entry.) *)
Theorem C7_user_persistence_failure_not_logged key uid ulocal e :
  let failed := submit key (user_refused uid ulocal e) hello_state [] in
  let succeeded := submit key (scenario uid ulocal e) hello_state [] in
  filter is_log (trace failed) = []
  /\ trace failed = trace succeeded
  /\ app failed = app succeeded
  /\ table failed
     = [Store.mkRow (lit "a1") getSessionId assistant (lit "Hi there!") (lit "T2")].
Proof.
  repeat split; vm_compute; reflexivity.
Qed.

(** The result of the user-turn insert is never looked at: whatever the store
    decides, an accepted submission leaves the same component state and the
    same trace. *)
Lemma user_append_outcome_is_ignored key w o st t :
  accepted st ->
  let w' := with_user_append w o in
  app (submit key w' st t) = app (submit key w st t)
  /\ trace (submit key w' st t) = trace (submit key w st t).
Proof.
  intros Hacc w'. subst w'.
  assert (Ho : try_outcome (with_user_append w o) = try_outcome w).
  { unfold try_outcome, with_user_append. cbn [completion].
    destruct (completion w) as [|r]; [reflexivity|].
    destruct (negb (ok r)); [reflexivity|].
    destruct (json_body r) as [d|]; [|reflexivity].
    unfold assistantMsgContent. cbn [index_of_undefined]. reflexivity. }
  destruct (try_outcome w) as [reply | e] eqn:H.
  - rewrite (submit_replies key _ st t reply Hacc Ho),
            (submit_replies key w st t reply Hacc H).
    cbn [with_user_append assistant_append uuid_local user_turn uuid_user].
    destruct (assistant_append w); split; reflexivity.
  - rewrite (submit_throws key _ st t e Hacc Ho), (submit_throws key w st t e Hacc H).
    split; reflexivity.
Qed.

(** C10, at a 2xx response whose body has no [choices].  Reading index 0 of
    the missing field throws; the handler shows the engine's error text as an
    assistant turn and neither stores nor shows the fallback reply. *)
Theorem C10_missing_choices_is_an_error key :
  let s := submit key no_choices hello_state [] in
  messages (app s)
    = [mkChatMessage sample_uuid_1 user (lit "hello") None;
       mkChatMessage sample_uuid_2 assistant
         (lit "Error: Cannot read properties of undefined (reading '0')") None]
  /\ filter is_store_call (trace s)
     = [StoreInsert (Store.mkPayload getSessionId user (lit "hello")) false]
  /\ table s = [Store.mkRow (lit "u1") getSessionId user (lit "hello") (lit "T1")].
Proof.
  repeat split; vm_compute; reflexivity.
Qed.

(** Where [choices] is a list, a missing or empty content gives the fallback
    reply. *)
Lemma assistantMsgContent_fallback w d cs :
  Provider.choices d = Some cs ->
  completion_text d = None \/ completion_text d = Some [] ->
  assistantMsgContent w d = Ok fallback_reply.
Proof.
  unfold completion_text, assistantMsgContent. intros ->.
  destruct cs as [|ch cs]; cbn [nth_error]; [reflexivity|].
  destruct (Provider.message ch) as [m|]; [|reflexivity].
  intros [-> | ->]; reflexivity.
Qed.

(** With [choices] a list and the content missing or empty, the fallback
    reply is what the store is given and what the view model shows. *)
Lemma fallback_reply_is_stored_and_shown key w st t r d cs new_id createdAt :
  accepted st ->
  completion w = Resolves r -> ok r = true -> json_body r = Ok d ->
  Provider.choices d = Some cs ->
  completion_text d = None \/ completion_text d = Some [] ->
  assistant_append w = Store.Assigned new_id createdAt ->
  let s := submit key w st t in
  messages (app s)
    = messages st ++ [user_turn w st;
                      mkChatMessage new_id assistant fallback_reply (Some createdAt)]
  /\ table s
     = table_after_user w st t
       ++ [Store.mkRow new_id getSessionId assistant fallback_reply createdAt]
  /\ filter is_store_call (trace s)
     = [StoreInsert (user_payload st) false;
        StoreInsert (assistant_payload fallback_reply) true].
Proof.
  intros Hacc Hr Hok Hd Hcs Htext Hstore s. subst s.
  assert (Ho : try_outcome w = Ok fallback_reply).
  { unfold try_outcome. rewrite Hr, Hok, Hd. cbn [negb].
    now apply (assistantMsgContent_fallback w d cs). }
  rewrite (submit_replies key w st t _ Hacc Ho), Hstore.
  repeat split; reflexivity.
Qed.

(** C1, on the client.  Every accepted submission sends a request whose
    [Authorization] header is "Bearer " followed by the key the client was
    built with: the credential is in the client and on the wire. *)
Theorem C1_client_request_carries_credential k w st t :
  accepted st ->
  exists req,
    In (Fetch req) (trace (submit (Some k) w st t))
    /\ In (lit "Authorization", lit "Bearer " ++ k) (headers req).
Proof.
  intros Hacc. exists (completion_request (Some k) (prompt st)). split.
  - assert (H := accepted_submission_fetches_once (Some k) w st t Hacc).
    assert (Hin : In (Fetch (completion_request (Some k) (prompt st)))
                    (filter is_fetch (trace (submit (Some k) w st t)))).
    { rewrite H. left. reflexivity. }
    apply filter_In in Hin. exact (proj1 Hin).
  - right. left. reflexivity.
Qed.

(** A client built with the key nvapi-secret, run through the theorem. *)
Lemma C1_client_request_carries_credential_witness :
  exists req,
    In (Fetch req) (trace (submit (Some (lit "nvapi-secret")) sample_world hello_state []))
    /\ In (lit "Authorization", lit "Bearer " ++ lit "nvapi-secret") (headers req).
Proof.
  apply (C1_client_request_carries_credential (lit "nvapi-secret") sample_world
           hello_state []).
  split; [discriminate | reflexivity].
Defined.

(** *** Claims about the proxy *)

Import Gateway GatewaySpec.

(** The resolved key is missing or empty, or it is a non-empty string. *)
Lemma key_present_cases (v : option jsstring) :
  falsy v = true \/ exists k, v = Some k /\ k <> [].
Proof.
  destruct v as [[|c k]|]; [left | right | left]; try reflexivity.
  eexists; split; [reflexivity | discriminate].
Qed.

Lemma falsy_present (k : jsstring) : k <> [] -> falsy (Some k) = false.
Proof. destruct k; [congruence | reflexivity]. Qed.



(** The outcome of a call is determined by the host's answers. *)
Lemma Handles_deterministic h req o1 o2 :
  Handles h req o1 -> Handles h req o2 -> o1 = o2.
Proof.
  intros H1 H2.
  destruct H1; destruct H2;
    repeat match goal with
    | H : resolve_key _ = Some ?k, H' : falsy (resolve_key _) = true, N : ?k <> [] |- _ =>
        rewrite H, (falsy_present k N) in H'; discriminate H'
    | H : resolve_key ?e = Some ?a, H' : resolve_key ?e = Some ?b |- _ =>
        rewrite H in H'; injection H' as ->
    | H : destructure_messages ?h ?b = _, H' : destructure_messages ?h ?b = _ |- _ =>
        rewrite H in H'; first [discriminate H' | injection H' as ->]
    | H : upstream ?h ?r = _, H' : upstream ?h ?r = _ |- _ =>
        rewrite H in H'; first [discriminate H' | injection H' as ->]
    | H : ok ?r = _, H' : ok ?r = _ |- _ =>
        rewrite H in H'; first [discriminate H' | clear H']
    | H : text ?r = _, H' : text ?r = _ |- _ =>
        rewrite H in H'; first [discriminate H' | injection H' as ->]
    | H : json_body ?r = _, H' : json_body ?r = _ |- _ =>
        rewrite H in H'; first [discriminate H' | injection H' as ->]
    end; reflexivity.
Qed.

(** The request a call forwards, when it forwards one. *)
Lemma forwarded_request h req r :
  forwarded (handler h req) = Some r ->
  exists k, resolve_key (env h) = Some k /\ k <> []
            /\ r = upstream_request k (messages_field (req_body req)).
Proof.
  unfold handler.
  destruct (jsstring_eqb (method req) (lit "OPTIONS")); [discriminate|].
  destruct (negb (jsstring_eqb (method req) (lit "POST"))); [discriminate|].
  unfold try_block. cbv zeta.
  destruct (key_present_cases (resolve_key (env h))) as [Hk | (k & Hk & Hne)].
  { rewrite Hk. discriminate. }
  rewrite Hk, (falsy_present k Hne). cbn [template].
  unfold destructure_messages, messages_field.
  destruct (req_body req) as [v|]; [|discriminate].
  intros H. exists k. split; [reflexivity|]. split; [exact Hne|].
  destruct v;
    try discriminate H;
    match type of H with
    | context [upstream h ?q] => destruct (upstream h q) as [e|resp]
    end;
    try (destruct (negb (ok resp)); [destruct (text resp) | destruct (json_body resp)]);
    cbn in H; injection H as <-; reflexivity.
Qed.

(** C9. Whenever the proxy forwards a request, its body is built from the
    constants model = meta/llama-3.1-70b-instruct, temperature = 0.7 and
    max_tokens = 1024 and from the caller's [messages] field alone: two
    callers' bodies with the same [messages] field are forwarded as the same
    request, whatever else they contain. *)
Theorem C9_forwarded_body_uses_fixed_parameters h req r :
  forwarded (handler h req) = Some r ->
  body r = completions_body (messages_field (req_body req))
  /\ prop (lit "model") (body r) = Some (JStr (lit "meta/llama-3.1-70b-instruct"))
  /\ prop (lit "temperature") (body r) = Some (JNum (7 # 10)%Q)
  /\ prop (lit "max_tokens") (body r) = Some (JNum (1024 # 1)%Q)
  /\ prop (lit "messages") (body r) = messages_field (req_body req)
  /\ (forall req' r',
        forwarded (handler h req') = Some r' ->
        messages_field (req_body req') = messages_field (req_body req) ->
        r' = r).
Proof.
  intros H. destruct (forwarded_request h req r H) as (k & Hk & Hne & ->).
  split; [reflexivity|].
  cbn [body upstream_request].
  destruct (messages_field (req_body req)) as [m|] eqn:Hm;
    (split; [vm_compute; reflexivity|]);
    (split; [vm_compute; reflexivity|]);
    (split; [vm_compute; reflexivity|]);
    (split; [vm_compute; reflexivity|]);
    intros req' r' H' Hsame;
    destruct (forwarded_request h req' r' H') as (k' & Hk' & _ & ->);
    rewrite Hk in Hk'; injection Hk' as <-; rewrite Hsame; reflexivity.
Qed.

(** A caller that also names a model and a budget, run through the theorem. *)
Lemma C9_forwarded_body_uses_fixed_parameters_witness :
  forwarded (handler (sample_host sample_answer) sample_req)
    = Some (upstream_request (lit "nvapi-secret") (Some sample_messages))
  /\ prop (lit "model") (body (upstream_request (lit "nvapi-secret") (Some sample_messages)))
     = Some (JStr (lit "meta/llama-3.1-70b-instruct"))
  /\ prop (lit "max_tokens") (body (upstream_request (lit "nvapi-secret") (Some sample_messages)))
     = Some (JNum (1024 # 1)%Q).
Proof.
  assert (H : forwarded (handler (sample_host sample_answer) sample_req)
              = Some (upstream_request (lit "nvapi-secret") (Some sample_messages)))
    by reflexivity.
  destruct (C9_forwarded_body_uses_fixed_parameters (sample_host sample_answer)
              sample_req _ H) as (_ & Hmodel & _ & Hmax & _).
  split; [exact H|]. split; [exact Hmodel | exact Hmax].
Defined.

(** The proxy's answer does not depend on which key is configured: two hosts
    with a key each, whose providers answer alike, answer the caller alike. *)
Lemma response_independent_of_key h1 h2 req k1 k2 :
  resolve_key (env h1) = Some k1 -> k1 <> [] ->
  resolve_key (env h2) = Some k2 -> k2 <> [] ->
  destructure_nullish h1 = destructure_nullish h2 ->
  (forall m, upstream h1 (upstream_request k1 m) = upstream h2 (upstream_request k2 m)) ->
  response (handler h1 req) = response (handler h2 req).
Proof.
  intros H1 N1 H2 N2 Hd Hu. unfold handler.
  destruct (jsstring_eqb (method req) (lit "OPTIONS")); [reflexivity|].
  destruct (negb (jsstring_eqb (method req) (lit "POST"))); [reflexivity|].
  unfold try_block. cbv zeta.
  rewrite H1, H2, (falsy_present k1 N1), (falsy_present k2 N2). cbn [template].
  unfold destructure_messages. rewrite Hd.
  destruct (req_body req) as [v|]; [|reflexivity].
  destruct v; try reflexivity; rewrite Hu;
    match goal with
    | |- context [upstream h2 ?q] => destruct (upstream h2 q) as [e|resp]
    end;
    try reflexivity;
    (destruct (negb (ok resp)); [destruct (text resp) | destruct (json_body resp)]);
    reflexivity.
Qed.

(* ================================================================= *)
(** ** Further properties of the client *)

Import Ui.

(** The assistant-side turn an accepted submission ends with: the stored
    reply, the local reply, or the error text. *)
Lemma accepted_submission_shape key w st t :
  accepted st ->
  exists reply_turn rows log,
    submit key w st t
    = mkSys (mkAppState (messages st ++ [user_turn w st; reply_turn]) [] false)
        (table_after_user w st t ++ rows)
        ([PreventDefault; StoreInsert (user_payload st) false;
          Fetch (completion_request key (prompt st))] ++ log)
    /\ role reply_turn = assistant
    /\ (rows = []
        \/ exists new_id createdAt,
             rows = [Store.mkRow new_id getSessionId assistant (content reply_turn) createdAt]
             /\ reply_turn = mkChatMessage new_id assistant (content reply_turn) (Some createdAt))
    /\ existsb is_fetch log = false.
Proof.
  intros Hacc. destruct (try_outcome w) as [reply | e] eqn:H.
  - rewrite (submit_replies key w st t reply Hacc H).
    destruct (assistant_append w) as [new_id createdAt | err].
    + exists (mkChatMessage new_id assistant reply (Some createdAt)),
        [Store.mkRow new_id getSessionId assistant reply createdAt],
        [StoreInsert (assistant_payload reply) true].
      repeat split. right. exists new_id, createdAt. split; reflexivity.
    + exists (mkChatMessage (uuid_local w) assistant reply None), [],
        [StoreInsert (assistant_payload reply) true;
         ConsoleWarn (lit "Failed to insert assistant message:") err].
      rewrite app_nil_r. repeat split. left. reflexivity.
  - rewrite (submit_throws key w st t e Hacc H).
    exists (mkChatMessage (uuid_local w) assistant (error_content e) None), [],
      [ConsoleError (lit "Error in chat flow:") e].
    rewrite app_nil_r. repeat split. left. reflexivity.
Qed.

(** Whatever the store and the provider answer, an accepted submission
    settles: the view model gains exactly two turns, the user turn followed by
    one assistant turn, the text field is cleared and the in-flight flag is
    down again. *)
Theorem accepted_submission_settles key w st t :
  accepted st ->
  let s := submit key w st t in
  (exists reply_turn,
     messages (app s) = messages st ++ [user_turn w st; reply_turn]
     /\ role reply_turn = assistant)
  /\ input (app s) = []
  /\ isLoading (app s) = false.
Proof.
  intros Hacc s. subst s.
  destruct (accepted_submission_shape key w st t Hacc)
    as (reply_turn & rows & log & -> & Hrole & _).
  split; [|split; reflexivity].
  exists reply_turn. split; [reflexivity | exact Hrole].
Qed.

Lemma accepted_submission_settles_witness :
  (exists reply_turn,
     messages (app (submit (Some (lit "k")) bad_gateway hello_state []))
       = messages hello_state ++ [user_turn bad_gateway hello_state; reply_turn]
     /\ role reply_turn = assistant)
  /\ input (app (submit (Some (lit "k")) bad_gateway hello_state [])) = []
  /\ isLoading (app (submit (Some (lit "k")) bad_gateway hello_state [])) = false.
Proof.
  apply (accepted_submission_settles (Some (lit "k")) bad_gateway hello_state []).
  split; [discriminate | reflexivity].
Defined.

Lemma table_after_user_shape w st t :
  table_after_user w st t = t
  \/ exists new_id createdAt,
       table_after_user w st t
       = t ++ [Store.mkRow new_id getSessionId user (trim (input st)) createdAt].
Proof.
  unfold table_after_user, Store.insert, user_payload.
  destruct (user_append w) as [new_id createdAt | err]; [right | left; reflexivity].
  exists new_id, createdAt. reflexivity.
Qed.

(** The table only grows, by at most two rows, all of them in the shared
    session and with role user or assistant: no row is changed or removed and
    the system preamble is never stored. *)
Theorem submission_only_appends_rows key w st t :
  exists rows,
    table (submit key w st t) = t ++ rows
    /\ List.length rows <= 2
    /\ forall r, In r rows ->
         Store.row_session_id r = getSessionId
         /\ (Store.row_role r = user \/ Store.row_role r = assistant).
Proof.
  destruct (Bool.bool_dec (negb (truthy (trim (input st))) || isLoading st) true) as [Hrej | Hacc].
  - exists []. unfold submit, handleSend, bind, emit, ret. cbn [app table trace].
    rewrite Hrej. cbn. rewrite app_nil_r. split; [reflexivity|]. split; [lia|]. intros r [].
  - assert (Hacc' : accepted st).
    { apply not_true_is_false, orb_false_iff in Hacc as [Hin Hl]. split; [|exact Hl].
      intros E. rewrite E in Hin. discriminate. }
    destruct (accepted_submission_shape key w st t Hacc')
      as (reply_turn & rows & log & -> & Hrole & Hrows & _).
    cbn [table].
    destruct (table_after_user_shape w st t) as [-> | (uid & ts & ->)];
      destruct Hrows as [-> | (aid & ats & -> & _)].
    + exists []. rewrite !app_nil_r. split; [reflexivity|]. split; [cbn; lia|]. intros r [].
    + rewrite ?app_nil_r. eexists. split; [reflexivity|]. split; [cbn; lia|].
      intros r Hr. destruct Hr as [Hr | []]; subst r; cbn; auto.
    + rewrite ?app_nil_r. eexists. split; [reflexivity|]. split; [cbn; lia|].
      intros r Hr. destruct Hr as [Hr | []]; subst r; cbn; auto.
    + rewrite <- app_assoc. eexists. split; [reflexivity|]. split; [cbn; lia|].
      intros r Hr. destruct Hr as [Hr | [Hr | []]]; subst r; cbn; auto.
Qed.


(** *** What [trim] keeps *)

Lemma trimStart_split s :
  exists pre, s = pre ++ trimStart s /\ forallb is_ws pre = true.
Proof.
  induction s as [|c s (pre & Hs & Hpre)]; [exists []; split; reflexivity|].
  cbn [trimStart]. destruct (is_ws c) eqn:Hc.
  - exists (c :: pre). split; [cbn; f_equal; exact Hs | cbn; now rewrite Hc].
  - exists []. split; reflexivity.
Qed.

Lemma trimStart_head s c rest : trimStart s = c :: rest -> is_ws c = false.
Proof.
  induction s as [|a s IH]; cbn [trimStart]; [discriminate|].
  destruct (is_ws a) eqn:Ha; [exact IH|].
  intros H. injection H as <- _. exact Ha.
Qed.

Lemma forallb_rev (f : N -> bool) l : forallb f (rev l) = forallb f l.
Proof.
  induction l as [|a l IH]; [reflexivity|].
  cbn [rev forallb]. rewrite forallb_app, IH. cbn. rewrite andb_true_r. apply andb_comm.
Qed.

Lemma trimEnd_split s :
  exists post, s = trimEnd s ++ post /\ forallb is_ws post = true.
Proof.
  unfold trimEnd. destruct (trimStart_split (rev s)) as (pre & Hs & Hpre).
  exists (rev pre). split; [|now rewrite forallb_rev].
  rewrite <- rev_app_distr, <- Hs. symmetry. apply rev_involutive.
Qed.

Lemma trimEnd_last s init z : trimEnd s = init ++ [z] -> is_ws z = false.
Proof.
  unfold trimEnd. intros H. apply (f_equal (@rev N)) in H.
  rewrite rev_involutive, rev_app_distr in H. cbn in H.
  exact (trimStart_head _ _ _ H).
Qed.

(** The trimmed text is the input without a run of white space at either
    end, and it neither starts nor ends with white space. *)
Lemma trim_spec s :
  (exists pre post,
     s = pre ++ trim s ++ post
     /\ forallb is_ws pre = true /\ forallb is_ws post = true)
  /\ (forall c rest, trim s = c :: rest -> is_ws c = false)
  /\ (forall init z, trim s = init ++ [z] -> is_ws z = false).
Proof.
  unfold trim.
  destruct (trimStart_split s) as (pre & Hs & Hpre).
  destruct (trimEnd_split (trimStart s)) as (post & Hu & Hpost).
  split; [|split].
  - exists pre, post. split; [|split; assumption].
    rewrite <- Hu. exact Hs.
  - intros c rest H. rewrite H in Hu.
    destruct (trimStart s) as [|a u] eqn:Hts; [discriminate Hu|].
    injection Hu as -> _. exact (trimStart_head s c u Hts).
  - intros init z H. exact (trimEnd_last _ _ _ H).
Qed.

Lemma trimStart_fixed s :
  (forall c rest, s = c :: rest -> is_ws c = false) -> trimStart s = s.
Proof.
  destruct s as [|c s]; [reflexivity|]. intros H. cbn [trimStart].
  now rewrite (H c s eq_refl).
Qed.

(** Trimming a trimmed text changes nothing. *)
Lemma trim_idempotent s : trim (trim s) = trim s.
Proof.
  destruct (trim_spec s) as (_ & Hhead & Hlast).
  unfold trim at 1. rewrite (trimStart_fixed (trim s) Hhead).
  unfold trimEnd. rewrite trimStart_fixed; [apply rev_involutive|].
  intros c rest H. apply (Hlast (rev rest) c).
  rewrite <- (rev_involutive (trim s)), H. reflexivity.
Qed.

(** The text of a submission is stored, shown and sent trimmed: the input is
    that text between two runs of white space, the text is not empty and
    neither starts nor ends with white space; the user turn, the row offered
    to the store and the last entry of the prompt all carry it. *)
Theorem submitted_text_is_trimmed key w st t :
  accepted st ->
  exists c pre post first rest init final,
    input st = pre ++ c ++ post
    /\ forallb is_ws pre = true /\ forallb is_ws post = true
    /\ c = first :: rest /\ is_ws first = false
    /\ c = init ++ [final] /\ is_ws final = false
    /\ In (mkChatMessage (uuid_user w) user c None) (messages (app (submit key w st t)))
    /\ In (StoreInsert (Store.mkPayload getSessionId user c) false)
          (trace (submit key w st t))
    /\ last (prompt st) system_preamble = mkApiMessage user c.
Proof.
  intros Hacc. pose proof Hacc as [Hne _].
  destruct (trim_spec (input st)) as ((pre & post & Hs & Hpre & Hpost) & Hhead & Hlast).
  destruct (trim (input st)) as [|first rest] eqn:Hc; [congruence|].
  destruct (exists_last (l := first :: rest)) as (init & final & Hfin); [discriminate|].
  exists (first :: rest), pre, post, first, rest, init, final.
  split; [exact Hs|]. split; [exact Hpre|]. split; [exact Hpost|].
  split; [reflexivity|]. split; [exact (Hhead first rest eq_refl)|].
  split; [exact Hfin|]. split; [exact (Hlast init final Hfin)|].
  destruct (accepted_submission_shape key w st t Hacc)
    as (reply_turn & rows & log & -> & _).
  cbn [app messages trace]. unfold user_turn, user_payload, prompt, apiMessages.
  rewrite Hc. split; [|split].
  - apply in_or_app. right. left. reflexivity.
  - right. left. reflexivity.
  - rewrite app_assoc. apply last_last.
Qed.

Lemma submitted_text_is_trimmed_witness :
  exists c pre post first rest init final,
    lit "  hello " = pre ++ c ++ post
    /\ forallb is_ws pre = true /\ forallb is_ws post = true
    /\ c = first :: rest /\ is_ws first = false
    /\ c = init ++ [final] /\ is_ws final = false
    /\ In (mkChatMessage sample_uuid_1 user c None)
          (messages (app (submit None sample_world (mkAppState [] (lit "  hello ") false) [])))
    /\ In (StoreInsert (Store.mkPayload getSessionId user c) false)
          (trace (submit None sample_world (mkAppState [] (lit "  hello ") false) []))
    /\ last (prompt (mkAppState [] (lit "  hello ") false)) system_preamble
       = mkApiMessage user c.
Proof.
  apply (submitted_text_is_trimmed None sample_world
           (mkAppState [] (lit "  hello ") false) []).
  split; [vm_compute; discriminate | reflexivity].
Defined.

(** *** The guard, sessions and the prompt's history *)

Lemma accepted_iff_enabled st : accepted st <-> send_disabled st = false.
Proof.
  unfold accepted, send_disabled. split.
  - intros [Hne Hl]. now rewrite (truthy_nonempty _ Hne), Hl.
  - intros H. apply orb_false_iff in H as [Hin Hl]. split; [|exact Hl].
    intros E. rewrite E in Hin. discriminate.
Qed.

Lemma not_all_ws_iff s :
  forallb is_ws s = false <-> exists c, In c s /\ is_ws c = false.
Proof.
  split.
  - induction s as [|a s IH]; [discriminate|]. cbn [forallb].
    destruct (is_ws a) eqn:Ha; cbn [andb].
    + intros H. destruct (IH H) as (c & Hin & Hc). exists c. split; [now right | exact Hc].
    + intros _. exists a. split; [now left | exact Ha].
  - intros (c & Hin & Hc). destruct (forallb is_ws s) eqn:H; [|reflexivity].
    rewrite forallb_forall in H. rewrite (H c Hin) in Hc. discriminate.
Qed.

(** The handler acts exactly when the submit button is enabled, that is when
    the input holds a character that is not white space and no submission is
    in flight: then it sends its one request; otherwise it leaves the state
    alone, so a submission made by other means than the button (the Enter key)
    is held to the same guard. *)
Theorem handler_guard_matches_button key w st t :
  (send_disabled st = false
   <-> (exists c, In c (input st) /\ is_ws c = false) /\ isLoading st = false)
  /\ (send_disabled st = false
      <-> filter is_fetch (trace (submit key w st t))
          = [Fetch (completion_request key (prompt st))])
  /\ (send_disabled st = true
      <-> app (submit key w st t) = st /\ trace (submit key w st t) = [PreventDefault]).
Proof.
  assert (Hrej : send_disabled st = true ->
                 app (submit key w st t) = st /\ trace (submit key w st t) = [PreventDefault]).
  { intros H. unfold submit, handleSend, bind, emit, ret. cbn [app table trace].
    unfold send_disabled in H. rewrite H. cbn. destruct st; split; reflexivity. }
  assert (Hacc : send_disabled st = false ->
                 filter is_fetch (trace (submit key w st t))
                 = [Fetch (completion_request key (prompt st))]).
  { intros H. apply accepted_submission_fetches_once. now apply accepted_iff_enabled. }
  split; [|split].
  - rewrite <- accepted_iff_enabled. unfold accepted. rewrite <- not_all_ws_iff.
    split; intros [H1 H2]; (split; [|exact H2]).
    + destruct (forallb is_ws (input st)) eqn:E; [|reflexivity].
      apply trim_empty_iff in E. congruence.
    + intros E. apply trim_empty_iff in E. congruence.
  - split; [exact Hacc|]. intros H.
    destruct (send_disabled st) eqn:E; [|reflexivity].
    destruct (Hrej eq_refl) as [_ Ht]. rewrite Ht in H. discriminate.
  - split; [exact Hrej|]. intros [_ Ht].
    destruct (send_disabled st) eqn:E; [reflexivity|].
    pose proof (Hacc eq_refl) as Hf. rewrite Ht in Hf. discriminate.
Qed.

Lemma onChange_accepted v st :
  trim v <> [] -> isLoading st = false -> accepted (onChange v st).
Proof. intros Hv Hl. split; [exact Hv | exact Hl]. Qed.

(** Submissions made one after the other from an idle component: however
    each one ends (stored reply, local reply or error), the transcript grows
    by one user turn followed by one assistant turn per submission, the user
    turns carrying the trimmed texts in order; earlier turns are kept, and the
    component is idle again at the end. *)
Theorem session_alternates_user_assistant key xs st t :
  isLoading st = false ->
  Forall (fun x => trim (typed x) <> []) xs ->
  let s := session key xs (st, t) in
  exists new_turns,
    messages (fst s) = messages st ++ new_turns
    /\ map role new_turns = List.concat (map (fun _ => [user; assistant]) xs)
    /\ map content (filter (fun m => negb (is_assistant m)) new_turns)
       = map (fun x => trim (typed x)) xs
    /\ isLoading (fst s) = false.
Proof.
  intros Hl Hall. cbv zeta. revert st t Hl.
  induction Hall as [|x xs Hx Hall IH]; intros st t Hl.
  - exists []. cbn. rewrite app_nil_r. repeat split; assumption.
  - unfold session in *. cbn [fold_left].
    pose proof (onChange_accepted (typed x) st Hx Hl) as Hacc.
    assert (Hstep : exists reply_turn tbl,
               type_and_send key (st, t) x
               = (mkAppState
                    (messages st ++ [user_turn (world x) (onChange (typed x) st); reply_turn])
                    [] false, tbl)
               /\ role reply_turn = assistant).
    { unfold type_and_send. cbn [fst snd].
      destruct (accepted_submission_shape key (world x) (onChange (typed x) st) t Hacc)
        as (reply_turn & rows & log & E & Hrole & _).
      rewrite E. cbn [app table]. do 2 eexists. split; [reflexivity | exact Hrole]. }
    destruct Hstep as (reply_turn & tbl & -> & Hrole).
    destruct (IH (mkAppState
                    (messages st ++ [user_turn (world x) (onChange (typed x) st); reply_turn])
                    [] false) tbl eq_refl) as (rest & Hm & Hr & Hc & Hl').
    exists ([user_turn (world x) (onChange (typed x) st); reply_turn] ++ rest).
    rewrite Hm. cbn [messages]. split; [now rewrite <- app_assoc|].
    split; [cbn; rewrite Hrole, Hr; reflexivity|].
    split; [|exact Hl'].
    assert (Hu : is_assistant (user_turn (world x) (onChange (typed x) st)) = false)
      by reflexivity.
    assert (Ha : is_assistant reply_turn = true)
      by (unfold is_assistant; rewrite Hrole; reflexivity).
    cbn [List.app filter]. rewrite Hu, Ha. cbn [negb map]. rewrite Hc. reflexivity.
Qed.

Lemma session_alternates_user_assistant_witness :
  exists new_turns,
    messages (fst (session None
                     [mkSubmission (lit "hello") bad_gateway;
                      mkSubmission (lit " again ") sample_world]
                     (hello_state, [])))
      = messages hello_state ++ new_turns
    /\ map role new_turns = [user; assistant; user; assistant]
    /\ map content (filter (fun m => negb (is_assistant m)) new_turns)
       = [lit "hello"; lit "again"]
    /\ isLoading (fst (session None
                         [mkSubmission (lit "hello") bad_gateway;
                          mkSubmission (lit " again ") sample_world]
                         (hello_state, []))) = false.
Proof.
  apply (session_alternates_user_assistant None
           [mkSubmission (lit "hello") bad_gateway;
            mkSubmission (lit " again ") sample_world] hello_state []).
  - reflexivity.
  - repeat constructor; vm_compute; discriminate.
Defined.

(** The next prompt carries the whole previous exchange: after an accepted
    submission, the prompt of the following one is the preamble, the earlier
    turns, the previous user text, the previous assistant turn's content and
    the new text.  When the previous submission failed at the gateway, that
    assistant entry is the error text shown to the user. *)
Theorem next_prompt_carries_previous_exchange key w st t v :
  accepted st ->
  let s1 := submit key w st t in
  exists reply_turn,
    messages (app s1) = messages st ++ [user_turn w st; reply_turn]
    /\ prompt (onChange v (app s1))
       = [system_preamble] ++ map to_api (messages st)
         ++ [mkApiMessage user (trim (input st));
             mkApiMessage assistant (content reply_turn);
             mkApiMessage user (trim v)]
    /\ (forall e, GatewayFails w e -> content reply_turn = error_content e).
Proof.
  intros Hacc s1. subst s1.
  destruct (accepted_submission_shape key w st t Hacc)
    as (reply_turn & rows & log & E & Hrole & _).
  exists reply_turn. rewrite E. cbn [app messages]. split; [reflexivity|]. split.
  - unfold prompt, apiMessages, onChange. cbn [messages input].
    rewrite map_app. cbn [map]. unfold to_api at 2 3, user_turn. cbn [role content].
    rewrite Hrole.
    rewrite <- !app_assoc. reflexivity.
  - intros e Hfail.
    rewrite (submit_throws key w st t e Hacc (GatewayFails_throws w e Hfail)) in E.
    injection E as E _. apply app_inv_head in E. injection E as <-. reflexivity.
Qed.

Lemma next_prompt_carries_previous_exchange_witness :
  exists reply_turn,
    messages (app (submit None bad_gateway hello_state []))
      = messages hello_state ++ [user_turn bad_gateway hello_state; reply_turn]
    /\ prompt (onChange (lit "again") (app (submit None bad_gateway hello_state [])))
       = [system_preamble] ++ map to_api (messages hello_state)
         ++ [mkApiMessage user (trim (input hello_state));
             mkApiMessage assistant (content reply_turn);
             mkApiMessage user (trim (lit "again"))]
    /\ (forall e, GatewayFails bad_gateway e -> content reply_turn = error_content e).
Proof.
  apply (next_prompt_carries_previous_exchange None bad_gateway hello_state [] (lit "again")).
  split; [discriminate | reflexivity].
Defined.

(** *** Edge cases of a submission *)

(** A client built without a key still sends its request, with the header
    [Authorization: Bearer undefined]. *)
Theorem missing_client_key_sends_bearer_undefined w st t :
  accepted st ->
  filter is_fetch (trace (submit None w st t))
    = [Fetch (completion_request None (prompt st))]
  /\ headers (completion_request None (prompt st))
     = [(lit "Content-Type", lit "application/json");
        (lit "Authorization", lit "Bearer undefined")].
Proof.
  intros Hacc. split; [now apply accepted_submission_fetches_once|].
  unfold completion_request. cbn [headers template]. rewrite lit_app. reflexivity.
Qed.

Lemma missing_client_key_sends_bearer_undefined_witness :
  filter is_fetch (trace (submit None sample_world hello_state []))
    = [Fetch (completion_request None (prompt hello_state))]
  /\ headers (completion_request None (prompt hello_state))
     = [(lit "Content-Type", lit "application/json");
        (lit "Authorization", lit "Bearer undefined")].
Proof.
  apply (missing_client_key_sends_bearer_undefined sample_world hello_state []).
  split; [discriminate | reflexivity].
Defined.

(** A 2xx response whose body cannot be parsed ends like a gateway failure:
    the parser's error is logged once and shown as the assistant turn, and the
    assistant turn is not offered to the store.  An error without a message is
    shown as the generic text. *)
Theorem unreadable_reply_is_shown_as_error key w st t r e :
  accepted st ->
  completion w = Resolves r -> ok r = true -> json_body r = Throw e ->
  let s := submit key w st t in
  messages (app s)
    = messages st ++ [user_turn w st;
                      mkChatMessage (uuid_local w) assistant (error_content e) None]
  /\ filter is_log (trace s) = [ConsoleError (lit "Error in chat flow:") e]
  /\ filter is_store_call (trace s) = [StoreInsert (user_payload st) false]
  /\ table s = table_after_user w st t
  /\ (message e = [] ->
      error_content e = lit "Error: An error occurred while processing your request.")
  /\ (message e <> [] -> message e <> lit "Failed to fetch" ->
      error_content e = lit "Error: " ++ message e).
Proof.
  intros Hacc Hr Hok Hj s. subst s.
  assert (Ho : try_outcome w = Throw e).
  { unfold try_outcome. rewrite Hr, Hok, Hj. reflexivity. }
  rewrite (submit_throws key w st t e Hacc Ho). cbn [app messages trace table].
  repeat split.
  - intros Hm. unfold error_content. rewrite Hm. vm_compute. reflexivity.
  - intros Hm Hf. unfold error_content, or_else. rewrite (truthy_nonempty _ Hm).
    unfold jsstring_eqb. destruct (jsstring_eq_dec _ _) as [E|_]; [congruence | reflexivity].
Qed.

Lemma unreadable_reply_is_shown_as_error_witness :
  messages (app (submit None
                   (mkWorld sample_uuid_1 sample_uuid_2 (Store.Refused (lit "down"))
                      (Resolves (mkResponse 200%N (lit "OK") (Ok (lit "<html>"))
                                   (Throw (mkError []))))
                      (Store.Assigned (lit "a1") (lit "T2")) v8_index_error)
                   hello_state []))
  = [mkChatMessage sample_uuid_1 user (lit "hello") None;
     mkChatMessage sample_uuid_2 assistant
       (lit "Error: An error occurred while processing your request.") None].
Proof.
  assert (Hacc : accepted hello_state) by (split; [discriminate | reflexivity]).
  destruct (unreadable_reply_is_shown_as_error None
              (mkWorld sample_uuid_1 sample_uuid_2 (Store.Refused (lit "down"))
                 (Resolves (mkResponse 200%N (lit "OK") (Ok (lit "<html>"))
                              (Throw (mkError []))))
                 (Store.Assigned (lit "a1") (lit "T2")) v8_index_error)
              hello_state [] _ (mkError [])
              Hacc
              eq_refl eq_refl eq_refl) as (Hm & _ & _ & _ & Hdefault & _).
  rewrite Hm, (Hdefault eq_refl). reflexivity.
Defined.

(** The fallback reply, run through [fallback_reply_is_stored_and_shown]: an
    empty list of choices. *)
Lemma fallback_reply_is_stored_and_shown_witness :
  messages (app (submit None
                   (mkWorld sample_uuid_1 sample_uuid_2
                      (Store.Assigned (lit "u1") (lit "T1"))
                      (http_200 (Provider.mkCompletion (Some [])))
                      (Store.Assigned (lit "a1") (lit "T2")) v8_index_error)
                   hello_state []))
  = [mkChatMessage sample_uuid_1 user (lit "hello") None;
     mkChatMessage (lit "a1") assistant fallback_reply (Some (lit "T2"))].
Proof.
  assert (Hacc : accepted hello_state) by (split; [discriminate | reflexivity]).
  destruct (fallback_reply_is_stored_and_shown None
              (mkWorld sample_uuid_1 sample_uuid_2
                 (Store.Assigned (lit "u1") (lit "T1"))
                 (http_200 (Provider.mkCompletion (Some [])))
                 (Store.Assigned (lit "a1") (lit "T2")) v8_index_error)
              hello_state [] _ (Provider.mkCompletion (Some [])) [] (lit "a1") (lit "T2")
              Hacc
              eq_refl eq_refl eq_refl eq_refl (or_introl eq_refl) eq_refl) as (Hm & _).
  exact Hm.
Defined.

(** The ignored user-turn outcome, run through
    [user_append_outcome_is_ignored]: the all-success scenario with the user
    turn refused instead. *)
Lemma user_append_outcome_is_ignored_witness :
  app (submit None (with_user_append sample_world (Store.Refused (lit "down")))
         hello_state [])
  = app (submit None sample_world hello_state [])
  /\ trace (submit None (with_user_append sample_world (Store.Refused (lit "down")))
              hello_state [])
     = trace (submit None sample_world hello_state []).
Proof.
  apply (user_append_outcome_is_ignored None sample_world (Store.Refused (lit "down"))
           hello_state []).
  split; [discriminate | reflexivity].
Defined.

(** *** Hydration *)

Import Hydration.

Lemma order_by_created_at_sorted earlier l :
  ascending earlier l -> order_by_created_at earlier l = l.
Proof.
  unfold ascending. induction 1 as [|r l Hs IH Hhd]; [reflexivity|].
  cbn [order_by_created_at fold_right]. fold (order_by_created_at earlier l). rewrite IH.
  destruct Hhd as [|r' l' Hr]; [reflexivity|]. cbn [insert_row]. now rewrite Hr.
Qed.

Lemma filter_session_all (t : Store.Table) :
  Forall (fun r => Store.row_session_id r = getSessionId) t ->
  filter (fun r => jsstring_eqb (Store.row_session_id r) getSessionId) t = t.
Proof.
  induction 1 as [|r t Hr _ IH]; [reflexivity|].
  cbn [filter]. rewrite Hr, IH. reflexivity.
Qed.

Lemma ascending_prefix earlier (l l' : Store.Table) :
  ascending earlier (l ++ l') -> ascending earlier l.
Proof.
  unfold ascending. induction l as [|r l IH]; [constructor|].
  cbn [List.app]. intros H. inversion H as [|? ? Hs Hhd]; subst. constructor; [auto|].
  destruct l as [|r' l]; [constructor|]. inversion Hhd; subst. now constructor.
Qed.

Lemma hydrate_sorted earlier t st :
  Forall (fun r => Store.row_session_id r = getSessionId) t ->
  ascending earlier t ->
  hydrate earlier t st = mkAppState (map as_ChatMessage t) (input st) (isLoading st).
Proof.
  intros Hall Hasc. unfold hydrate, select_chats, fetchChats. cbn [select_error select_data fst].
  now rewrite (filter_session_all t Hall), (order_by_created_at_sorted earlier t Hasc).
Qed.

(** The first prompt after hydration has one entry per row the query
    returned, in the query's order and as role and content, between the
    preamble and the new text: nothing is left out and nothing bounds its
    length. *)
Theorem first_prompt_sends_every_hydrated_row data st v :
  let st' := onChange v (fst (fetchChats (mkSelect (Some data) None) st)) in
  prompt st'
    = [system_preamble]
      ++ map (fun r => mkApiMessage (Store.row_role r) (Store.row_content r)) data
      ++ [mkApiMessage user (trim v)]
  /\ List.length (prompt st') = List.length data + 2.
Proof.
  cbv zeta. unfold prompt, apiMessages, onChange, fetchChats.
  cbn [select_error select_data fst messages input].
  rewrite map_map. split; [reflexivity|].
  cbn [List.app]. rewrite length_cons, length_app, length_map. cbn. lia.
Qed.

(** What a reload shows after a submission whose two turns were stored.  With
    the table holding the shared session only and in ascending creation
    order, a component hydrated from the table, then used for one submission
    that obtains reply [c], shows the same roles and contents as a component
    hydrated afterwards; the reloaded user turn has the store's id and
    creation time where the live one has the local id and none. *)
Theorem reload_after_stored_submission_agrees key earlier w t st0 v c uid uts aid ats :
  isLoading st0 = false -> trim v <> [] ->
  Forall (fun r => Store.row_session_id r = getSessionId) t ->
  user_append w = Store.Assigned uid uts ->
  assistant_append w = Store.Assigned aid ats ->
  try_outcome w = Ok c ->
  let st := onChange v (hydrate earlier t st0) in
  let s := submit key w st t in
  ascending earlier (table s) ->
  messages (app s)
    = map as_ChatMessage t
      ++ [mkChatMessage (uuid_user w) user (trim v) None;
          mkChatMessage aid assistant c (Some ats)]
  /\ messages (hydrate earlier (table s) (app s))
     = map as_ChatMessage t
       ++ [mkChatMessage uid user (trim v) (Some uts);
           mkChatMessage aid assistant c (Some ats)]
  /\ map to_api (messages (hydrate earlier (table s) (app s)))
     = map to_api (messages (app s)).
Proof.
  intros Hl Hv Hall Hu Ha Ho st s. subst st s.
  assert (Hacc : accepted (onChange v (hydrate earlier t st0))).
  { split; [exact Hv|]. unfold hydrate, select_chats, fetchChats.
    cbn [select_error select_data fst onChange isLoading]. exact Hl. }
  rewrite (submit_replies key w _ t c Hacc Ho), Ha.
  unfold table_after_user, user_payload, user_turn. rewrite Hu.
  cbn [Store.insert snd table app messages onChange input Store.session_id
       Store.payload_role Store.payload_content].
  rewrite <- app_assoc. cbn [List.app]. intros Hasc.
  assert (Hall' : Forall (fun r => Store.row_session_id r = getSessionId)
                    (t ++ [Store.mkRow uid getSessionId user (trim v) uts;
                           Store.mkRow aid getSessionId assistant c ats])).
  { apply Forall_app. split; [exact Hall|]. repeat constructor. }
  rewrite (hydrate_sorted earlier t st0 Hall (ascending_prefix earlier _ _ Hasc)).
  rewrite (hydrate_sorted earlier _ _ Hall' Hasc).
  cbn [messages]. rewrite map_app. cbn [map as_ChatMessage Store.row_id Store.row_role
    Store.row_content Store.row_created_at].
  split; [reflexivity|]. split; [reflexivity|].
  rewrite !map_app. reflexivity.
Qed.

Lemma reload_after_stored_submission_agrees_witness :
  messages (hydrate stamp_le
              (table (submit None sample_world
                        (onChange (lit "hello") (hydrate stamp_le [] hello_state)) []))
              (app (submit None sample_world
                      (onChange (lit "hello") (hydrate stamp_le [] hello_state)) [])))
  = [mkChatMessage (lit "u1") user (lit "hello") (Some (lit "T1"));
     mkChatMessage (lit "a1") assistant (lit "Hi there!") (Some (lit "T2"))].
Proof.
  assert (Hasc : ascending stamp_le
                   (table (submit None sample_world
                             (onChange (lit "hello") (hydrate stamp_le [] hello_state)) []))).
  { vm_compute. repeat constructor. }
  destruct (reload_after_stored_submission_agrees None stamp_le sample_world []
              hello_state (lit "hello") (lit "Hi there!")
              (lit "u1") (lit "T1") (lit "a1") (lit "T2")
              eq_refl ltac:(vm_compute; discriminate) (Forall_nil _)
              eq_refl eq_refl eq_refl Hasc) as (_ & Hr & _).
  rewrite Hr. vm_compute. reflexivity.
Defined.

(** What a reload loses.  After a submission that ended in an error, or whose
    turns the store refused, a component hydrated afterwards shows only what
    was stored: with both the user turn refused and the gateway failing,
    nothing of the exchange survives the reload. *)
Theorem reload_drops_unstored_turns key earlier w t st0 v e err :
  isLoading st0 = false -> trim v <> [] ->
  Forall (fun r => Store.row_session_id r = getSessionId) t ->
  ascending earlier t ->
  user_append w = Store.Refused err ->
  try_outcome w = Throw e ->
  let st := onChange v (hydrate earlier t st0) in
  let s := submit key w st t in
  messages (app s)
    = map as_ChatMessage t
      ++ [mkChatMessage (uuid_user w) user (trim v) None;
          mkChatMessage (uuid_local w) assistant (error_content e) None]
  /\ table s = t
  /\ messages (hydrate earlier (table s) (app s)) = map as_ChatMessage t.
Proof.
  intros Hl Hv Hall Hasc Hu Ho st s. subst st s.
  assert (Hacc : accepted (onChange v (hydrate earlier t st0))).
  { split; [exact Hv|]. unfold hydrate, select_chats, fetchChats.
    cbn [select_error select_data fst onChange isLoading]. exact Hl. }
  rewrite (submit_throws key w _ t e Hacc Ho).
  unfold table_after_user, user_payload, user_turn. rewrite Hu.
  cbn [Store.insert snd table app messages onChange input].
  rewrite !(hydrate_sorted earlier t _ Hall Hasc). cbn [messages].
  repeat split; reflexivity.
Qed.

Lemma reload_drops_unstored_turns_witness :
  messages (hydrate stamp_le
              (table (submit None (with_user_append bad_gateway (Store.Refused (lit "down")))
                        (onChange (lit "hello") (hydrate stamp_le [] hello_state)) []))
              (app (submit None (with_user_append bad_gateway (Store.Refused (lit "down")))
                      (onChange (lit "hello") (hydrate stamp_le [] hello_state)) [])))
  = [].
Proof.
  destruct (reload_drops_unstored_turns None stamp_le
              (with_user_append bad_gateway (Store.Refused (lit "down"))) []
              hello_state (lit "hello") _ (lit "down")
              eq_refl ltac:(vm_compute; discriminate) (Forall_nil _)
              (Sorted_nil _) eq_refl eq_refl) as (_ & _ & Hr).
  exact Hr.
Defined.

(* ================================================================= *)
(** ** Further properties of the proxy *)

Import GatewayRun.

(** The whole run of a POST, outcome by outcome. *)
Lemma post_run h req :
  method req = lit "POST" ->
  exists o,
    Handles h req o
    /\ response (handler h req) = reply o
    /\ logged (handler h req) = console_error o.
Proof.
  intros Hpost. unfold handler. rewrite Hpost.
  change (jsstring_eqb (lit "POST") (lit "OPTIONS")) with false.
  change (jsstring_eqb (lit "POST") (lit "POST")) with true.
  cbn [negb]. unfold try_block. cbv zeta.
  destruct (key_present_cases (resolve_key (env h))) as [Hk | (k & Hk & Hne)].
  { rewrite Hk. exists (Failed ConfigurationError). split; [now constructor|].
    split; reflexivity. }
  rewrite Hk, (falsy_present k Hne). cbn [template].
  destruct (destructure_messages h (req_body req)) as [m | e] eqn:Hm.
  2:{ exists (Failed (InternalError e)). split; [now apply (body_unreadable h req k)|].
      split; reflexivity. }
  destruct (upstream h (upstream_request k m)) as [e | r] eqn:Hu.
  { exists (Failed (InternalError e)). split; [now apply (upstream_unreachable h req k m)|].
    split; reflexivity. }
  destruct (ok r) eqn:Hok; cbn [negb].
  - destruct (json_body r) as [data | e] eqn:Hj.
    + exists (Completed data). split; [now apply (upstream_completes h req k m r)|].
      split; reflexivity.
    + exists (Failed (InternalError e)). split; [now apply (upstream_garbled h req k m r)|].
      split; reflexivity.
  - destruct (text r) as [detail | e] eqn:Ht.
    + exists (Failed (UpstreamError (status r) detail)).
      split; [now apply (upstream_refuses h req k m r)|]. split; reflexivity.
    + exists (Failed (InternalError e)).
      split; [now apply (upstream_refuses_unread h req k m r)|]. split; reflexivity.
Qed.

(** The pre-flight request is answered 200 with an empty body and the
    cross-origin headers, whatever the host: no key is needed, nothing is
    sent to the provider and nothing is logged. *)
Theorem preflight_needs_no_key_and_no_upstream h req :
  method req = lit "OPTIONS" ->
  handler h req = mkRun (mkRes 200 cors_headers Ended) None None.
Proof.
  intros H. unfold handler. rewrite H.
  change (jsstring_eqb (lit "OPTIONS") (lit "OPTIONS")) with true. reflexivity.
Qed.

Lemma preflight_needs_no_key_and_no_upstream_witness :
  handler (host_with None None (Rejects (mkError (lit "offline"))))
    (mkReq (lit "OPTIONS") None)
  = mkRun (mkRes 200 cors_headers Ended) None None.
Proof.
  apply (preflight_needs_no_key_and_no_upstream
           (host_with None None (Rejects (mkError (lit "offline"))))
           (mkReq (lit "OPTIONS") None)).
  reflexivity.
Defined.

Lemma jsstring_eqb_neq (a b : jsstring) : a <> b -> jsstring_eqb a b = false.
Proof. intros H. unfold jsstring_eqb. destruct (jsstring_eq_dec a b); [congruence | reflexivity]. Qed.

Lemma jsstring_eqb_eq (a b : jsstring) : jsstring_eqb a b = true <-> a = b.
Proof.
  unfold jsstring_eqb. destruct (jsstring_eq_dec a b); split; congruence.
Qed.

(** Any method other than OPTIONS and POST (compared as written, so also
    "post") is refused with 405 and an error text; nothing is sent to the
    provider and nothing is logged. *)
Theorem other_methods_are_refused h req :
  method req <> lit "OPTIONS" -> method req <> lit "POST" ->
  handler h req
  = mkRun (respond_json 405 (error_object (lit "Method not allowed. Use POST."))) None None.
Proof.
  intros H1 H2. unfold handler.
  now rewrite (jsstring_eqb_neq _ _ H1), (jsstring_eqb_neq _ _ H2).
Qed.

Lemma other_methods_are_refused_witness :
  handler (sample_host sample_answer) (mkReq (lit "post") (req_body sample_req))
  = mkRun (respond_json 405 (error_object (lit "Method not allowed. Use POST."))) None None.
Proof.
  apply (other_methods_are_refused (sample_host sample_answer)
           (mkReq (lit "post") (req_body sample_req)));
    vm_compute; discriminate.
Defined.

(** Every response, to any method and with any outcome, carries the same
    four cross-origin headers, among them [Access-Control-Allow-Origin: *]
    together with [Access-Control-Allow-Credentials: true]. *)
Theorem every_response_has_cors_headers h req :
  res_headers (response (handler h req)) = cors_headers
  /\ In (lit "Access-Control-Allow-Origin", lit "*") (res_headers (response (handler h req)))
  /\ In (lit "Access-Control-Allow-Credentials", lit "true")
        (res_headers (response (handler h req))).
Proof.
  assert (H : res_headers (response (handler h req)) = cors_headers).
  { unfold handler.
    destruct (jsstring_eqb (method req) (lit "OPTIONS")); [reflexivity|].
    destruct (negb (jsstring_eqb (method req) (lit "POST"))); [reflexivity|].
    destruct (try_block h req) as [[res | e] sent] eqn:E; [|reflexivity].
    cbn [response res_headers]. unfold try_block in E. cbv zeta in E.
    destruct (falsy (resolve_key (env h))); [injection E as <- _; reflexivity|].
    destruct (destructure_messages h (req_body req)) as [m|]; [|discriminate E].
    injection E as E _.
    destruct (upstream h _) as [|r]; [discriminate E|].
    destruct (negb (ok r)).
    - destruct (text r); [injection E as <-; reflexivity | discriminate E].
    - destruct (json_body r); [injection E as <-; reflexivity | discriminate E]. }
  rewrite H. split; [reflexivity|]. split; [right; left; reflexivity | left; reflexivity].
Qed.

(** A request goes to the provider exactly when the method is POST, a
    non-empty key is configured and the body is neither missing nor [null];
    it is then the one request of the call, to the provider's URL, and its
    [Authorization] header is "Bearer " followed by the configured key. *)
Theorem forwards_iff_post_key_and_body h req :
  (forwarded (handler h req) <> None
   <-> method req = lit "POST"
       /\ falsy (resolve_key (env h)) = false
       /\ req_body req <> None /\ req_body req <> Some JNull)
  /\ (forall r, forwarded (handler h req) = Some r ->
        url r = lit "https://integrate.api.nvidia.com/v1/chat/completions"
        /\ http_method r = lit "POST"
        /\ exists k, resolve_key (env h) = Some k
                     /\ headers r = [(lit "Content-Type", lit "application/json");
                                     (lit "Authorization", lit "Bearer " ++ k)]).
Proof.
  split.
  - unfold handler.
    destruct (jsstring_eqb (method req) (lit "OPTIONS")) eqn:Eo.
    { apply jsstring_eqb_eq in Eo. cbn [forwarded]. split; [congruence|].
      intros (Hp & _). rewrite Hp in Eo. vm_compute in Eo. discriminate Eo. }
    destruct (jsstring_eqb (method req) (lit "POST")) eqn:Ep; cbn [negb].
    2:{ cbn [forwarded]. split; [congruence|]. intros (Hp & _).
        apply jsstring_eqb_eq in Hp. congruence. }
    apply jsstring_eqb_eq in Ep.
    unfold try_block. cbv zeta.
    destruct (falsy (resolve_key (env h))) eqn:Ek.
    { cbn [forwarded]. split; [congruence|]. intros (_ & Hk & _). discriminate Hk. }
    unfold destructure_messages.
    destruct (req_body req) as [v|].
    2:{ cbn [forwarded]. split; [congruence|]. intros (_ & _ & Hb & _). congruence. }
    assert (Hsome : forall (x : result Res) (q : FetchRequest),
               forwarded match x with
                         | Ok res => mkRun res (Some q) None
                         | Throw error =>
                             mkRun (respond_json 500
                                      (JObj [(lit "error",
                                              JStr (lit "Internal Server Error fetching from Nvidia"));
                                             (lit "details", JStr (message error))]))
                                   (Some q) (Some error)
                         end <> None).
    { intros [res|e] q; discriminate. }
    destruct v;
      try (split; [intros _; repeat split; congruence | intros _; apply Hsome]).
    cbn [forwarded]. split; [congruence|]. intros (_ & _ & _ & Hb). congruence.
  - intros r H. destruct (forwarded_request h req r H) as (k & Hk & Hne & ->).
    split; [reflexivity|]. split; [reflexivity|]. exists k. split; [exact Hk | reflexivity].
Qed.

(** The key is [VITE_NVIDIA_API_KEY] when that is set and not empty, and
    [NVIDIA_API_KEY] otherwise; when neither gives a non-empty key a POST is
    answered 500 with the configuration error, without any request to the
    provider and without a log entry. *)
Theorem key_precedence_and_missing_key h req :
  (forall k, VITE_NVIDIA_API_KEY (env h) = Some k -> k <> [] ->
     resolve_key (env h) = Some k)
  /\ (VITE_NVIDIA_API_KEY (env h) = None \/ VITE_NVIDIA_API_KEY (env h) = Some [] ->
      resolve_key (env h) = NVIDIA_API_KEY (env h))
  /\ (method req = lit "POST" -> falsy (resolve_key (env h)) = true ->
      handler h req
      = mkRun (respond_json 500
                 (error_object
                    (lit "Backend Configuration Error: NVIDIA API Key is missing on Vercel.")))
              None None).
Proof.
  split; [|split].
  - intros k Hk Hne. unfold resolve_key, or_undefined. rewrite Hk.
    now rewrite (truthy_nonempty k Hne).
  - intros [Hk | Hk]; unfold resolve_key, or_undefined; rewrite Hk; reflexivity.
  - intros Hpost Hk. unfold handler. rewrite Hpost.
    change (jsstring_eqb (lit "POST") (lit "OPTIONS")) with false.
    change (jsstring_eqb (lit "POST") (lit "POST")) with true.
    cbn [negb]. unfold try_block. cbv zeta. rewrite Hk. reflexivity.
Qed.

(** An error is logged exactly when the handler caught an exception (an
    unreadable body, a rejected request, a body that could not be read or
    parsed); a provider's error status is relayed without a log entry. *)
Theorem logs_exactly_the_exceptions h req e :
  method req = lit "POST" ->
  (logged (handler h req) = Some e <-> Handles h req (Failed (InternalError e)))
  /\ (forall code detail, Handles h req (Failed (UpstreamError code detail)) ->
        logged (handler h req) = None
        /\ response (handler h req) = reply (Failed (UpstreamError code detail))).
Proof.
  intros Hpost. destruct (post_run h req Hpost) as (o & Ho & Hres & Hlog).
  split.
  - rewrite Hlog. split.
    + destruct o as [data | [| e' | code detail]]; try discriminate.
      intros H. injection H as <-. exact Ho.
    + intros H. now rewrite (Handles_deterministic h req _ _ Ho H).
  - intros code detail H. rewrite Hlog, Hres.
    now rewrite (Handles_deterministic h req _ _ Ho H).
Qed.

Lemma logs_exactly_the_exceptions_witness :
  logged (handler (host_with None (Some (lit "nvapi-secret"))
                     (Rejects (mkError (lit "fetch failed"))))
            sample_req)
  = Some (mkError (lit "fetch failed")).
Proof.
  apply (logs_exactly_the_exceptions
           (host_with None (Some (lit "nvapi-secret")) (Rejects (mkError (lit "fetch failed"))))
           sample_req (mkError (lit "fetch failed")) eq_refl).
  apply (upstream_unreachable _ _ (lit "nvapi-secret") (Some sample_messages));
    try reflexivity.
  discriminate.
Defined.

Lemma status_ok_500 : status_ok 500 = false.
Proof. reflexivity. Qed.



(** The proxy does not validate the body.  Any body that is not [null] is
    forwarded; when it has no [messages] field, or is not an object at all,
    the forwarded body holds only the three fixed fields. *)
Theorem body_without_messages_is_forwarded h req v k :
  method req = lit "POST" ->
  resolve_key (env h) = Some k -> k <> [] ->
  req_body req = Some v -> v <> JNull ->
  prop (lit "messages") v = None ->
  forwarded (handler h req) = Some (upstream_request k None)
  /\ body (upstream_request k None)
     = JObj [(lit "model", JStr (lit "meta/llama-3.1-70b-instruct"));
             (lit "temperature", JNum (7 # 10)%Q);
             (lit "max_tokens", JNum (1024 # 1)%Q)].
Proof.
  intros Hpost Hk Hne Hb Hv Hm. split; [|reflexivity].
  unfold handler. rewrite Hpost.
  change (jsstring_eqb (lit "POST") (lit "OPTIONS")) with false.
  change (jsstring_eqb (lit "POST") (lit "POST")) with true.
  cbn [negb]. unfold try_block. cbv zeta.
  rewrite Hk, (falsy_present k Hne), Hb. cbn [template].
  assert (Hd : destructure_messages h (Some v) = Ok None).
  { unfold destructure_messages. rewrite Hm. destruct v; congruence. }
  rewrite Hd.
  destruct (upstream h (upstream_request k None)) as [e|resp]; [reflexivity|].
  destruct (negb (ok resp)); [destruct (text resp) | destruct (json_body resp)]; reflexivity.
Qed.

Lemma body_without_messages_is_forwarded_witness :
  forwarded (handler (sample_host sample_answer)
               (mkReq (lit "POST") (Some (JStr (lit "hello")))))
  = Some (upstream_request (lit "nvapi-secret") None).
Proof.
  apply (body_without_messages_is_forwarded (sample_host sample_answer)
           (mkReq (lit "POST") (Some (JStr (lit "hello"))))
           (JStr (lit "hello")) (lit "nvapi-secret"));
    try reflexivity; discriminate.
Defined.

(** The body the client builds is one the proxy forwards unchanged: given
    that body, the proxy sends the provider the same JSON, under its own key
    instead of the client's. *)
Theorem proxy_forwards_client_body_unchanged h client_key msgs k :
  resolve_key (env h) = Some k -> k <> [] ->
  let client := completion_request client_key msgs in
  let sent := forwarded (handler h (mkReq (lit "POST") (Some (body client)))) in
  sent = Some (upstream_request k (Some (JArr (map api_json msgs))))
  /\ option_map body sent = Some (body client)
  /\ option_map headers sent
     = Some [(lit "Content-Type", lit "application/json");
             (lit "Authorization", lit "Bearer " ++ k)].
Proof.
  intros Hk Hne client sent. subst client sent.
  assert (H : forwarded (handler h (mkReq (lit "POST")
                                      (Some (body (completion_request client_key msgs)))))
              = Some (upstream_request k (Some (JArr (map api_json msgs))))).
  { unfold handler. cbn [method].
    change (jsstring_eqb (lit "POST") (lit "OPTIONS")) with false.
    change (jsstring_eqb (lit "POST") (lit "POST")) with true.
    cbn [negb]. unfold try_block. cbv zeta.
    rewrite Hk, (falsy_present k Hne). cbn [template req_body].
    assert (Hd : destructure_messages h (Some (body (completion_request client_key msgs)))
                 = Ok (Some (JArr (map api_json msgs)))) by reflexivity.
    rewrite Hd.
    destruct (upstream h _) as [e|resp]; [reflexivity|].
    destruct (negb (ok resp)); [destruct (text resp) | destruct (json_body resp)]; reflexivity. }
  rewrite H. repeat split.
Qed.

Lemma proxy_forwards_client_body_unchanged_witness :
  option_map body
    (forwarded (handler (sample_host sample_answer)
                  (mkReq (lit "POST")
                     (Some (body (completion_request (Some (lit "client-key"))
                                    (prompt hello_state)))))))
  = Some (body (completion_request (Some (lit "client-key")) (prompt hello_state))).
Proof.
  destruct (proxy_forwards_client_body_unchanged (sample_host sample_answer)
              (Some (lit "client-key")) (prompt hello_state) (lit "nvapi-secret")
              eq_refl ltac:(discriminate)) as (_ & Hb & _).
  exact Hb.
Defined.

(* ================================================================= *)
(** ** The copy buttons *)

Lemma idStr_same_message msg_id c1 c2 :
  idStr msg_id c1 = idStr msg_id c2 <-> firstn 10 c1 = firstn 10 c2.
Proof.
  unfold idStr. split.
  - intros H. now repeat apply app_inv_head in H.
  - now intros ->.
Qed.

(** Within one message a code block's copy mark is keyed by the first ten
    code units of its text only: copying a block marks as copied every block
    of the message whose text starts with the same ten code units, and no
    other.  The text written is the block's text without one final line
    feed. *)
Theorem code_blocks_share_mark_iff_same_prefix written msg_id raw1 raw2 c :
  let copied := copyToClipboard written (codeString raw1)
                  (idStr msg_id (codeString raw1)) c in
  (written = true -> clipboard copied = Some (codeString raw1))
  /\ (isCopied copied (idStr msg_id (codeString raw2)) = true
      <-> firstn 10 (codeString raw1) = firstn 10 (codeString raw2))
  /\ (forall s, codeString (Some (s ++ [10%N])) = s).
Proof.
  cbv zeta. split; [intros ->; reflexivity|]. split.
  - unfold isCopied, copyToClipboard. cbn [copiedId].
    rewrite jsstring_eqb_eq. apply idStr_same_message.
  - intros s. unfold codeString, strip_final_newline.
    assert (Ht : truthy (s ++ [10%N]) = true) by (destruct s; reflexivity).
    rewrite Ht, rev_app_distr. cbn [rev List.app]. apply rev_involutive.
Qed.

(** The copy mark does not follow the clipboard.  Where the clipboard is
    missing the click throws before anything is marked.  Where the write is
    rejected the mark is set although nothing was written.  And the timer of
    an earlier copy clears the mark of a later one: after copying [a], then
    [b], the first timer to fire leaves [b] unmarked although it was just
    copied. *)
Theorem copy_mark_does_not_follow_clipboard text_a id_a text_b id_b c :
  click_copy NoClipboard text_a id_a c = None
  /\ (exists s,
        click_copy WriteRejected text_a id_a c = Some s
        /\ isCopied s id_a = true /\ clipboard s = clipboard c)
  /\ (exists s1 s2,
        click_copy WriteDone text_a id_a c = Some s1
        /\ click_copy WriteDone text_b id_b s1 = Some s2
        /\ isCopied s2 id_b = true
        /\ isCopied (copied_timeout s2) id_b = false
        /\ clipboard (copied_timeout s2) = Some text_b).
Proof.
  assert (Hself : forall i : jsstring, jsstring_eqb i i = true)
    by (intros i; now apply jsstring_eqb_eq).
  split; [reflexivity|]. split.
  - eexists. split; [reflexivity|]. split; [apply Hself | reflexivity].
  - do 2 eexists. split; [reflexivity|]. split; [reflexivity|].
    split; [apply Hself|]. split; reflexivity.
Qed.

(** Two hosts with different keys and the same provider, run through
    [response_independent_of_key]. *)
Lemma response_independent_of_key_witness :
  response (handler (host_with (Some (lit "key-one")) None sample_answer) sample_req)
  = response (handler (host_with None (Some (lit "key-two")) sample_answer) sample_req).
Proof.
  apply (response_independent_of_key
           (host_with (Some (lit "key-one")) None sample_answer)
           (host_with None (Some (lit "key-two")) sample_answer)
           sample_req (lit "key-one") (lit "key-two"));
    try reflexivity; discriminate.
Defined.
